(** * CERN remote application of invenio-oauthclient: a shallow embedding

    This development embeds [invenio_oauthclient/contrib/cern.py] in Rocq and
    states its documented properties as theorems.  Python values that the
    module manipulates dynamically (the directory response, the session
    slots) are given by small inductive universes, exceptions by an error
    monad, sets of needs and dictionaries by stdpp's [gset] and [gmap].

    The module is read with the semantics of Python 3: [bytes] and [str] are
    distinct, ordering [None] against a [str] raises [TypeError].  Text is
    modelled on the ASCII range: [str] and [bytes] are both [string],
    [str.lower] lower-cases the letters A-Z, string comparison is by
    character code. *)

From Stdlib Require Import Ascii.
From stdpp Require Import gmap strings list.

(** ** Exceptions and the error monad *)

Module Py.

Inductive exn : Type :=
| IndexError
| TypeError
| KeyError
| AttributeError
| OverflowError
| UnicodeDecodeError
| LDAPError
| HTTPException (code : Z).

Inductive result (A : Type) : Type :=
| Ok (a : A)
| Raise (e : exn).

Arguments Ok {A} a.
Arguments Raise {A} e.

Definition bind {A B} (m : result A) (k : A → result B) : result B :=
  match m with
  | Ok a => k a
  | Raise e => Raise e
  end.

Definition returns {A} (m : result A) : Prop := ∃ a, m = Ok a.

#[export] Instance result_fmap : FMap result := λ A B f m, bind m (λ a, Ok (f a)).

End Py.

Import Py.

Notation "x <- m ;; k" := (Py.bind m (λ x, k))
  (at level 100, m at next level, right associativity).

(** ** Regular expressions

    The compiled patterns of [re] are given by their syntax tree.
    [regexp.match(s)] anchors the match at the start of [s] and is used by the
    module for its truth value only: it is not [None] exactly when some prefix
    of [s] belongs to the language of the pattern. *)

Module Re.

Inductive regex : Type :=
| Nul
| Eps
| Chr (c : ascii)
| Range (lo hi : ascii)
| Cat (r1 r2 : regex)
| Alt (r1 r2 : regex)
| Star (r : regex).

Definition Plus (r : regex) : regex := Cat r (Star r).

Fixpoint lit (s : string) : regex :=
  match s with
  | EmptyString => Eps
  | String c s' => Cat (Chr c) (lit s')
  end.

Definition in_range (lo hi c : ascii) : bool :=
  ((nat_of_ascii lo <=? nat_of_ascii c) && (nat_of_ascii c <=? nat_of_ascii hi))%nat.

Inductive lang : regex → string → Prop :=
| lang_eps : lang Eps ""
| lang_chr c : lang (Chr c) (String c "")
| lang_range lo hi c : in_range lo hi c = true → lang (Range lo hi) (String c "")
| lang_cat r1 r2 s1 s2 : lang r1 s1 → lang r2 s2 → lang (Cat r1 r2) (s1 +:+ s2)
| lang_alt_l r1 r2 s : lang r1 s → lang (Alt r1 r2) s
| lang_alt_r r1 r2 s : lang r2 s → lang (Alt r1 r2) s
| lang_star_nil r : lang (Star r) ""
| lang_star_cons r s1 s2 : lang r s1 → lang (Star r) s2 → lang (Star r) (s1 +:+ s2).

Fixpoint nullable (r : regex) : bool :=
  match r with
  | Nul => false
  | Eps => true
  | Chr _ => false
  | Range _ _ => false
  | Cat r1 r2 => nullable r1 && nullable r2
  | Alt r1 r2 => nullable r1 || nullable r2
  | Star _ => true
  end.

Fixpoint deriv (c : ascii) (r : regex) : regex :=
  match r with
  | Nul => Nul
  | Eps => Nul
  | Chr d => if Ascii.eqb c d then Eps else Nul
  | Range lo hi => if in_range lo hi c then Eps else Nul
  | Cat r1 r2 =>
      if nullable r1 then Alt (Cat (deriv c r1) r2) (deriv c r2)
      else Cat (deriv c r1) r2
  | Alt r1 r2 => Alt (deriv c r1) (deriv c r2)
  | Star r1 => Cat (deriv c r1) (Star r1)
  end.

(** [re_match r s]: the truth value of [r.match(s)]. *)
Fixpoint re_match (r : regex) (s : string) : bool :=
  nullable r ||
  match s with
  | EmptyString => false
  | String c s' => re_match (deriv c r) s'
  end.

(** The specification's wording: the pattern matches from the start of the
    string. *)
Definition matches_from_start (r : regex) (s : string) : Prop :=
  ∃ p q, s = p +:+ q ∧ lang r p.

End Re.

Import Re.

(** ** Configuration *)

Definition OAUTHCLIENT_CERN_HIDDEN_GROUPS : list string :=
  [ "All Exchange People";
    "CERN Users";
    "cern-computing-postmasters";
    "cern-nice2000-postmasters";
    "CMF FrontEnd Users";
    "CMF_NSC_259_NSU";
    "Domain Users";
    "GP Apply Favorites Redirection";
    "GP Apply NoAdmin";
    "info-terminalservices";
    "info-terminalservices-members";
    "IT Web IT";
    "NICE Deny Enforce Password-protected Screensaver";
    "NICE Enforce Password-protected Screensaver";
    "NICE LightWeight Authentication WS Users";
    "NICE MyDocuments Redirection (New)";
    "NICE Profile Redirection";
    "NICE Terminal Services Users";
    "NICE Users";
    "NICE VPN Users" ].

Definition OAUTHCLIENT_CERN_HIDDEN_GROUPS_RE : list regex :=
  [ Cat (lit "Users by Letter ") (Range "A"%char "Z"%char);
    Cat (lit "building-") (Plus (Range "0"%char "9"%char));
    Cat (lit "Users by Home CERNHOME") (Range "A"%char "Z"%char) ].

(** [current_app.config], as far as the module reads it.  An entry is [None]
    when the key is not set.  The pluggable extra-data serializer maps a
    resource dictionary to the scalar fields it extracts. *)
Record config : Type := {
  cfg_hidden_groups : option (list string);
  cfg_hidden_groups_re : option (list regex);
  cfg_refresh_timedelta : option (option Z);
  cfg_extra_data_serializer :
    option (gmap string (list (option string)) → Py.result (gmap string (option string)));
  cfg_consumer_key : option string;
}.

(** [config.get(key, default)] *)
Definition config_get {A} (entry : option A) (default : A) : A :=
  match entry with
  | Some v => v
  | None => default
  end.

(** ** Group filter *)

(** The nested loops that fill [filter_groups]. *)
Definition collect_matches (hidden_groups_re : list regex) (groups : list string)
    : list string :=
  foldl (λ filter_groups regexp,
           foldl (λ filter_groups group,
                    if re_match regexp group
                    then filter_groups ++ [group]
                    else filter_groups)
                 filter_groups groups)
        [] hidden_groups_re.

Definition fetch_groups (cfg : config) (groups : list string) : list string :=
  let hidden_groups :=
    config_get (cfg_hidden_groups cfg) OAUTHCLIENT_CERN_HIDDEN_GROUPS in
  let hidden_groups_re :=
    config_get (cfg_hidden_groups_re cfg) OAUTHCLIENT_CERN_HIDDEN_GROUPS_RE in
  let groups := filter (λ group, group ∉ hidden_groups) groups in
  let filter_groups := collect_matches hidden_groups_re groups in
  let groups := filter (λ group, group ∉ filter_groups) groups in
  groups.

(** The specification's wording of the filter: a group is denied when it
    equals an entry of the exact deny-list or some pattern of the regex
    deny-list matches it from the start. *)
Definition denied (exact_denylist : list string) (regex_denylist : list regex)
    (group : string) : Prop :=
  group ∈ exact_denylist ∨ ∃ r, r ∈ regex_denylist ∧ matches_from_start r group.

(** The same test as a boolean, by matching. *)
Definition is_denied (exact_denylist : list string) (regex_denylist : list regex)
    (group : string) : bool :=
  bool_decide (group ∈ exact_denylist)
  || existsb (λ r, re_match r group) regex_denylist.

Definition default_config : config :=
  {| cfg_hidden_groups := None; cfg_hidden_groups_re := None;
     cfg_refresh_timedelta := None; cfg_extra_data_serializer := None;
     cfg_consumer_key := Some "changeme" |}.


(** ** Text *)

Module Text.

Definition lower_char (c : ascii) : ascii :=
  let n := nat_of_ascii c in
  if (65 <=? n) && (n <=? 90) then ascii_of_nat (n + 32) else c.

(** [str.lower] *)
Fixpoint lower (s : string) : string :=
  match s with
  | EmptyString => EmptyString
  | String c s' => String (lower_char c) (lower s')
  end.

(** [s.replace(old, '')] for a non-empty [old]: the occurrences of [old] are
    removed from left to right; [skip] counts the characters of the
    occurrence being removed that are still to be dropped. *)
Fixpoint remove_from (old : string) (skip : nat) (s : string) : string :=
  match s with
  | EmptyString => EmptyString
  | String c s' =>
      match skip with
      | S k => remove_from old k s'
      | O =>
          if String.prefix old s
          then remove_from old (String.length old - 1) s'
          else String c (remove_from old 0 s')
      end
  end.

Definition remove_all (old s : string) : string := remove_from old 0 s.

(** The specification's wording: strip [p] when [s] starts with it. *)
Fixpoint strip_prefix (p s : string) : option string :=
  match p, s with
  | EmptyString, _ => Some s
  | String a p', String b s' => if Ascii.eqb a b then strip_prefix p' s' else None
  | String _ _, EmptyString => None
  end.

Definition without_prefix (p s : string) : string :=
  match strip_prefix p s with
  | Some rest => rest
  | None => s
  end.

(** [old in s] *)
Fixpoint contains (old s : string) : bool :=
  String.prefix old s
  || match s with
     | EmptyString => false
     | String _ s' => contains old s'
     end.

(** [b.split(sep)] for a separator of one byte; [cur] is the piece being
    read. *)
Fixpoint split_go (sep : ascii) (cur : string) (s : string) : list string :=
  match s with
  | EmptyString => [String.rev cur]
  | String c s' =>
      if Ascii.eqb c sep then String.rev cur :: split_go sep EmptyString s'
      else split_go sep (String c cur) s'
  end.

Definition split (sep : ascii) (s : string) : list string :=
  split_go sep EmptyString s.

(** [a > b] on two [str]. *)
Definition str_gt (a b : string) : bool := String.ltb b a.

Definition is_ascii (s : string) : bool :=
  forallb (λ c, nat_of_ascii c <? 128) (String.list_ascii_of_string s).

End Text.




(** ** Dates and times

    [datetime] and [timedelta] of the standard library, as far as the module
    uses them: a naive [datetime] is a record of its fields, a [timedelta] is
    given by its total number of microseconds (its normalised [days],
    [seconds] and [microseconds] are the digits of that number), [+] goes
    through the proleptic Gregorian ordinal and raises [OverflowError]
    outside of the years 1 to 9999. *)

Module DateTime.

Local Open Scope Z_scope.

Record datetime : Type := {
  year : Z;
  month : Z;
  day : Z;
  hour : Z;
  minute : Z;
  second : Z;
  microsecond : Z;
}.

Definition timedelta : Type := Z.

Definition timedelta_minutes (n : Z) : timedelta := n * 60 * 1000000.

Definition MAXORDINAL : Z := 3652059.

Definition is_leap (y : Z) : bool :=
  (y mod 4 =? 0) && (negb (y mod 100 =? 0) || (y mod 400 =? 0)).

Definition days_before_year (y : Z) : Z :=
  let y := y - 1 in y * 365 + y / 4 - y / 100 + y / 400.

Definition DAYS_IN_MONTH (m : Z) : Z :=
  match m with
  | 1 => 31 | 2 => 28 | 3 => 31 | 4 => 30 | 5 => 31 | 6 => 30
  | 7 => 31 | 8 => 31 | 9 => 30 | 10 => 31 | 11 => 30 | 12 => 31
  | _ => -1
  end.

Definition DAYS_BEFORE_MONTH (m : Z) : Z :=
  match m with
  | 1 => 0 | 2 => 31 | 3 => 59 | 4 => 90 | 5 => 120 | 6 => 151
  | 7 => 181 | 8 => 212 | 9 => 243 | 10 => 273 | 11 => 304 | 12 => 334
  | _ => -1
  end.

Definition days_in_month (y m : Z) : Z :=
  if (m =? 2) && is_leap y then 29 else DAYS_IN_MONTH m.

Definition days_before_month (y m : Z) : Z :=
  DAYS_BEFORE_MONTH m + (if (2 <? m) && is_leap y then 1 else 0).

Definition ymd2ord (y m d : Z) : Z :=
  days_before_year y + days_before_month y m + d.

Definition DI400Y : Z := 146097.
Definition DI100Y : Z := 36524.
Definition DI4Y : Z := 1461.

Definition ord2ymd (n : Z) : Z * Z * Z :=
  let n := n - 1 in
  let n400 := n / DI400Y in
  let n := n mod DI400Y in
  let y := n400 * 400 + 1 in
  let n100 := n / DI100Y in
  let n := n mod DI100Y in
  let n4 := n / DI4Y in
  let n := n mod DI4Y in
  let n1 := n / 365 in
  let n := n mod 365 in
  let y := y + n100 * 100 + n4 * 4 + n1 in
  if (n1 =? 4) || (n100 =? 4) then (y - 1, 12, 31)
  else
    let leapyear := (n1 =? 3) && (negb (n4 =? 24) || (n100 =? 3)) in
    let m := Z.shiftr (n + 50) 5 in
    let preceding :=
      DAYS_BEFORE_MONTH m + (if (2 <? m) && leapyear then 1 else 0) in
    if n <? preceding then
      let m := m - 1 in
      let preceding :=
        preceding - (DAYS_IN_MONTH m + (if (m =? 2) && leapyear then 1 else 0)) in
      (y, m, n - preceding + 1)
    else (y, m, n - preceding + 1).

Definition toordinal (dt : datetime) : Z :=
  ymd2ord (year dt) (month dt) (day dt).

Definition US_PER_SECOND : Z := 1000000.
Definition US_PER_DAY : Z := 86400 * US_PER_SECOND.

Definition to_microseconds (dt : datetime) : Z :=
  (toordinal dt * 86400 + hour dt * 3600 + minute dt * 60 + second dt)
  * US_PER_SECOND + microsecond dt.

(** [dt + td] *)
Definition add (dt : datetime) (td : timedelta) : result datetime :=
  let total := to_microseconds dt + td in
  let days := total / US_PER_DAY in
  let rest := total mod US_PER_DAY in
  let seconds := rest / US_PER_SECOND in
  let hour := seconds / 3600 in
  let rem := seconds mod 3600 in
  if (0 <? days) && (days <=? MAXORDINAL) then
    let '(y, m, d) := ord2ymd days in
    Ok {| year := y; month := m; day := d;
          hour := hour; minute := rem / 60; second := rem mod 60;
          microsecond := rest mod US_PER_SECOND |}
  else Raise OverflowError.

Definition digit (n : Z) : ascii := ascii_of_nat (48 + Z.to_nat n).

(** ["%0wd" % n] for [0 <= n < 10^w]. *)
Fixpoint zero_padded (w : nat) (n : Z) : string :=
  match w with
  | O => EmptyString
  | S w' => String (digit (n / 10 ^ Z.of_nat w' mod 10)) (zero_padded w' n)
  end.

(** [dt.isoformat()] *)
Definition isoformat (dt : datetime) : string :=
  zero_padded 4 (year dt) +:+ "-" +:+ zero_padded 2 (month dt) +:+ "-"
  +:+ zero_padded 2 (day dt) +:+ "T" +:+ zero_padded 2 (hour dt) +:+ ":"
  +:+ zero_padded 2 (minute dt) +:+ ":" +:+ zero_padded 2 (second dt)
  +:+ (if microsecond dt =? 0 then EmptyString
       else "." +:+ zero_padded 6 (microsecond dt)).

(** Lexicographic composition of comparisons. *)
Definition lex (c1 c2 : comparison) : comparison :=
  match c1 with
  | Eq => c2
  | _ => c1
  end.

(** The fields of a datetime, compared from the year down. *)
Definition fields_compare (d1 d2 : datetime) : comparison :=
  lex (year d1 ?= year d2)
  (lex (month d1 ?= month d2)
  (lex (day d1 ?= day d2)
  (lex (hour d1 ?= hour d2)
  (lex (minute d1 ?= minute d2)
  (lex (second d1 ?= second d2) (microsecond d1 ?= microsecond d2)))))).

(** The fields fit the widths [isoformat] prints them with. *)
Definition printable (dt : datetime) : Prop :=
  0 ≤ year dt < 10000 ∧ 0 ≤ month dt < 100 ∧ 0 ≤ day dt < 100
  ∧ 0 ≤ hour dt < 100 ∧ 0 ≤ minute dt < 100 ∧ 0 ≤ second dt < 100
  ∧ 0 ≤ microsecond dt < 1000000.

(** The calendar order of two dates. *)
Definition ymd_compare (y1 m1 d1 y2 m2 d2 : Z) : comparison :=
  lex (y1 ?= y2) (lex (m1 ?= m2) (d1 ?= d2)).

(** The month and the day of the [n]-th day of a year, counted from 0, as
    [ord2ymd] finds them. *)
Definition month_day (leapyear : bool) (n : Z) : Z * Z :=
  let m := Z.shiftr (n + 50) 5 in
  let preceding := DAYS_BEFORE_MONTH m + (if (2 <? m) && leapyear then 1 else 0) in
  if n <? preceding then
    let m := m - 1 in
    let preceding :=
      preceding - (DAYS_IN_MONTH m + (if (m =? 2) && leapyear then 1 else 0)) in
    (m, n - preceding + 1)
  else (m, n - preceding + 1).

(** The properties of [month_day] that the table check establishes. *)
Definition month_day_ok (leapyear : bool) (n : Z) : bool :=
  let '(m, d) := month_day leapyear n in
  (1 <=? m) && (m <=? 12) && (1 <=? d)
  && (d <=? DAYS_IN_MONTH m + (if (m =? 2) && leapyear then 1 else 0))
  && (DAYS_BEFORE_MONTH m + (if (2 <? m) && leapyear then 1 else 0) + d =? n + 1).

End DateTime.

Import DateTime.

Definition sample_now : datetime :=
  {| year := 2024; month := 3; day := 1; hour := 0; minute := 2; second := 30;
     microsecond := 0 |}.




(** ** Staleness test *)

Definition OAUTHCLIENT_CERN_REFRESH_TIMEDELTA : timedelta := timedelta_minutes (-5).

(** [a > b] where [a] is [None] or a [str] and [b] is a [str]: ordering
    [None] against a [str] raises [TypeError]. *)
Definition gt_str (a : option string) (b : string) : result bool :=
  match a with
  | Some a => Ok (Text.str_gt a b)
  | None => Raise TypeError
  end.

(** [utcnow] is the reading of [datetime.utcnow()]. *)
Definition should_refresh_groups (utcnow : datetime)
    (extra_data_updated : option string) (refresh_timedelta : option timedelta)
    : result bool :=
  let updated := utcnow in
  modified_since <-
    match refresh_timedelta with
    | Some refresh_timedelta => add updated refresh_timedelta
    | None => Ok updated
    end;;
  let modified_since := isoformat modified_since in
  (* [if updated is None]: [updated] is a datetime, the branch is never taken *)
  let last_update := extra_data_updated in
  is_gt <- gt_str last_update modified_since;;
  if is_gt then Ok false else Ok true.

(** The threshold the staleness test compares with: the ISO string of
    [now + window]. *)
Definition threshold (now : datetime) (window : option timedelta) : result string :=
  match window with
  | Some w => isoformat <$> add now w
  | None => Ok (isoformat now)
  end.

(** ** Needs, identities and the session *)

Inductive atom : Type :=
| AInt (n : Z)
| AStr (s : string).

(** [Need = namedtuple('Need', ['method', 'value'])] *)
Record Need : Type := mkNeed { method : string; value : atom }.

Definition UserNeed (v : atom) : Need := mkNeed "id" v.
Definition RoleNeed (v : string) : Need := mkNeed "role" (AStr v).

#[export] Instance atom_eq_dec : EqDecision atom.
Proof. solve_decision. Defined.

#[export] Instance atom_countable : Countable atom.
Proof.
  refine (inj_countable'
    (λ a, match a with AInt n => inl n | AStr s => inr s end)
    (λ x, match x with inl n => AInt n | inr s => AStr s end) _).
  by intros [].
Defined.

#[export] Instance Need_eq_dec : EqDecision Need.
Proof. solve_decision. Defined.

#[export] Instance Need_countable : Countable Need.
Proof.
  refine (inj_countable' (λ n, (method n, value n)) (λ p, mkNeed p.1 p.2) _).
  by intros [].
Defined.

Record identity : Type := {
  is_anonymous : bool;
  provides : gset Need;
}.

(** The two slots of the session the module uses:
    [OAUTHCLIENT_CERN_SESSION_KEY] and ['cern_resource']. *)
Record session_t : Type := {
  cern_provides : option (gset Need);
  cern_resource : option (gmap string (list (option string)));
}.

(** The needs derived from the current user's email and a group list. *)
Definition derived_provides (email : string) (groups : list string) : gset Need :=
  list_to_set (UserNeed (AStr email)
               :: ((λ name, RoleNeed (Text.lower name +:+ "@cern.ch")) <$> groups)).

Definition extend_identity (email : string) (idt : identity) (groups : list string)
    (session : session_t) : identity * session_t :=
  let provides_ := derived_provides email groups in
  ({| is_anonymous := is_anonymous idt; provides := provides idt ∪ provides_ |},
   {| cern_provides := Some provides_; cern_resource := cern_resource session |}).

(** [session.pop(KEY, {})] hands out the stored set or the default, an
    empty [dict]; [-=] between a [set] and a [dict] raises [TypeError]. *)
Definition disconnect_identity (idt : identity) (session : session_t)
    : result identity * session_t :=
  let provides_ := cern_provides session in
  let session := {| cern_provides := None; cern_resource := cern_resource session |} in
  match provides_ with
  | Some provides_ =>
      (Ok {| is_anonymous := is_anonymous idt; provides := provides idt ∖ provides_ |},
       session)
  | None => (Raise TypeError, session)
  end.

(** ** REST resource normaliser *)

Definition REMOTE_APP_RESOURCE_SCHEMA : string := "http://schemas.xmlsoap.org/claims/".

(** One entry of [response.data]. *)
Record claim : Type := { Type_ : string; Value : string }.

(** The response of [remote.get]: [resp_code] is [_resp.code] when [_resp]
    is truthy. *)
Record oauth_response : Type := {
  status : Z;
  resp_code : option Z;
  data : list claim;
}.

Definition setdefault (k : string) (d : list (option string))
    (m : gmap string (list (option string))) : gmap string (list (option string)) :=
  match m !! k with
  | Some _ => m
  | None => <[k := d]> m
  end.

Definition get_dict_from_response (response : oauth_response)
    : gmap string (list (option string)) :=
  let result := ∅ in
  if match resp_code response with Some code => (400 <? code)%Z | None => false end
  then result
  else
    foldl (λ result i,
             let k := Text.remove_all REMOTE_APP_RESOURCE_SCHEMA (Type_ i) in
             let result := setdefault k [] result in
             alter (λ l, l ++ [Some (Value i)]) k result)
          result (data response).

(** The specification's wording of the normaliser: every claim is filed
    under the field name of its type, the list of a field starts on the first
    occurrence and grows in arrival order. *)
Definition group_claims_by (field_name : string → string) (raw_claims : list claim)
    : gmap string (list (option string)) :=
  foldl (λ result i,
           let k := field_name (Type_ i) in
           <[k := default [] (result !! k) ++ [Some (Value i)]]> result)
        ∅ raw_claims.

(** The values filed under [k], in arrival order. *)
Definition values_of (field_name : string → string) (k : string)
    (raw_claims : list claim) : list (option string) :=
  (λ i, Some (Value i)) <$> filter (λ i, field_name (Type_ i) = k) raw_claims.

(** The field name as the specification has it: the claim type with the
    schema prefix stripped. *)
Definition normalize (raw_claims : list claim) : gmap string (list (option string)) :=
  group_claims_by (Text.without_prefix REMOTE_APP_RESOURCE_SCHEMA) raw_claims.

(** ** Python values of the directory response

    [lc.result()] hands back whatever the directory answered; the module
    indexes into it without checking its shape, so the answer is an arbitrary
    value of this universe.  Dictionaries have [str] keys. *)

#[warnings="-register-all"]
Inductive pyval : Type :=
| PNone
| PInt (n : Z)
| PStr (s : string)
| PBytes (b : string)
| PList (l : list pyval)
| PTuple (l : list pyval)
| PDict (d : list (string * pyval)).

Fixpoint assoc (k : string) (d : list (string * pyval)) : option pyval :=
  match d with
  | [] => None
  | (k', v) :: d' => if String.eqb k k' then Some v else assoc k d'
  end.

Definition truthy (v : pyval) : bool :=
  match v with
  | PNone => false
  | PInt n => negb (n =? 0)%Z
  | PStr s | PBytes s => negb (String.eqb s "")
  | PList l | PTuple l => negb (bool_decide (length l = 0))
  | PDict d => negb (bool_decide (length d = 0))
  end.

(** [v[i]] for an index [i >= 0] *)
Definition py_index (v : pyval) (i : nat) : result pyval :=
  match v with
  | PList l | PTuple l =>
      match l !! i with Some x => Ok x | None => Raise IndexError end
  | PStr s =>
      match String.get i s with
      | Some c => Ok (PStr (String c EmptyString))
      | None => Raise IndexError
      end
  | PBytes b =>
      match String.get i b with
      | Some c => Ok (PInt (Z.of_nat (nat_of_ascii c)))
      | None => Raise IndexError
      end
  | PDict _ => Raise KeyError
  | PNone | PInt _ => Raise TypeError
  end.

(** [v[k]] for a [str] key [k] *)
Definition py_getitem (v : pyval) (k : string) : result pyval :=
  match v with
  | PDict d => match assoc k d with Some x => Ok x | None => Raise KeyError end
  | _ => Raise TypeError
  end.

(** [v.get(k, default)] *)
Definition py_get (v : pyval) (k : string) (default : pyval) : result pyval :=
  match v with
  | PDict d => Ok (match assoc k d with Some x => x | None => default end)
  | _ => Raise AttributeError
  end.

(** [v.decode("utf-8")]: only [bytes] has the method. *)
Definition py_decode (v : pyval) : result string :=
  match v with
  | PBytes b => if Text.is_ascii b then Ok b else Raise UnicodeDecodeError
  | _ => Raise AttributeError
  end.

(** [v.split(sep)] for a one-byte [bytes] separator *)
Definition py_split (v : pyval) (sep : ascii) : result pyval :=
  match v with
  | PBytes b => Ok (PList (PBytes <$> Text.split sep b))
  | PStr _ => Raise TypeError
  | _ => Raise AttributeError
  end.

(** The items a [for] loop over [v] visits. *)
Definition py_iter (v : pyval) : result (list pyval) :=
  match v with
  | PList l | PTuple l => Ok l
  | PStr s => Ok ((λ c, PStr (String c EmptyString)) <$> String.list_ascii_of_string s)
  | PBytes b => Ok ((λ c, PInt (Z.of_nat (nat_of_ascii c))) <$> String.list_ascii_of_string b)
  | PDict d => Ok ((λ kv, PStr kv.1) <$> d)
  | PNone | PInt _ => Raise TypeError
  end.

(** ** Directory fallback *)

Record user : Type := {
  user_id : Z;
  email : string;
  is_authenticated : bool;
}.

(** What [get_resource] and [get_user_resources_ldap] hand back: a resource
    dictionary, or the response object that [jsonify] builds. *)
Inductive resource : Type :=
| ResDict (d : gmap string (list (option string)))
| ResJsonify (body : pyval).

Definition get_ldap_field_str (res : pyval) (key : string)
    : result (list (option string)) :=
  l <- py_get res key (PList [PNone]);;
  value <- py_index l 0;;
  if truthy value then (s <- py_decode value;; Ok [Some s]) else Ok [None].

(** The body of the loop over [res['memberOf']]: [groups] keeps what was
    appended before an exception. *)
Fixpoint memberOf_loop (items : list pyval) (groups : list string)
    : list string * result unit :=
  match items with
  | [] => (groups, Ok tt)
  | group :: items' =>
      let step :=
        parts <- py_split group ","%char;;
        group <- py_index parts 0;;
        parts <- py_split group "="%char;;
        group <- py_index parts 1;;
        py_decode group in
      match step with
      | Ok name => memberOf_loop items' (groups ++ [name])
      | Raise e => (groups, Raise e)
      end
  end.

(** The [try] block: the values of [res] and [groups] when it is left, and
    how it is left. *)
Definition ldap_try_block (email : string) (reply : result pyval)
    (res : pyval) (groups : list string) : pyval * list string * result unit :=
  match reply with
  | Raise e => (res, groups, Raise e)
  | Ok res =>
      match py_index res 1 with
      | Raise e => (res, groups, Raise e)
      | Ok res =>
          match (entry <- py_index res 0;; py_index entry 1) with
          | Raise e => (res, groups, Raise e)
          | Ok res =>
              match (mails <- py_getitem res "mail";;
                     mail <- py_index mails 0;;
                     mail <- py_decode mail;;
                     if String.eqb (Text.lower mail) (Text.lower email)
                     then members <- py_getitem res "memberOf";;
                          items <- py_iter members;;
                          Ok (Some items)
                     else Ok None) with
              | Raise e => (res, groups, Raise e)
              | Ok None => (res, groups, Ok tt)
              | Ok (Some items) =>
                  let '(groups, r) := memberOf_loop items groups in
                  (res, groups, r)
              end
          end
      end
  end.

(** [except (IndexError, TypeError): pass] *)
Definition caught (e : exn) : bool :=
  match e with
  | IndexError | TypeError => true
  | _ => false
  end.

(** [reply] is the outcome of the directory search ([ldap.initialize],
    [search_ext], [result]). *)
Definition get_user_resources_ldap (reply : result pyval) (user : user)
    : result resource :=
  let query := email user in
  if String.eqb query "" then Ok (ResJsonify (PList []))
  else
    let groups := [] in
    let res := PDict [] in
    let '(res, groups, r) := ldap_try_block (email user) reply res groups in
    _ <- match r with
         | Raise e => if caught e then Ok tt else Raise e
         | Ok tt => Ok tt
         end;;
    uidNumber <- get_ldap_field_str res "uidNumber";;
    CommonName <- get_ldap_field_str res "cn";;
    Firstname <- get_ldap_field_str res "displayName";;
    Lastname <- get_ldap_field_str res "displayName";;
    DisplayName <- get_ldap_field_str res "displayName";;
    Building <- get_ldap_field_str res "physicalDeliveryOfficeName";;
    Department <- get_ldap_field_str res "department";;
    PersonID <- get_ldap_field_str res "employeeID";;
    IdentityClass <- get_ldap_field_str res "department";;
    Ok (ResDict (list_to_map
      [ ("Group", Some <$> groups);
        ("EmailAddress", [Some (email user)]);
        ("uidNumber", uidNumber);
        ("CommonName", CommonName);
        ("Firstname", Firstname);
        ("Lastname", Lastname);
        ("DisplayName", DisplayName);
        ("Building", Building);
        ("Department", Department);
        ("PersonID", PersonID);
        ("IdentityClass", IdentityClass) ])).

(** The record of safe defaults: no group, the queried email, [[None]] for
    every profile field. *)
Definition ldap_defaults (email : string) : gmap string (list (option string)) :=
  list_to_map
    [ ("Group", []);
      ("EmailAddress", [Some email]);
      ("uidNumber", [None]);
      ("CommonName", [None]);
      ("Firstname", [None]);
      ("Lastname", [None]);
      ("DisplayName", [None]);
      ("Building", [None]);
      ("Department", [None]);
      ("PersonID", [None]);
      ("IdentityClass", [None]) ].

(** ** The request's world

    The objects the handlers share: the session, [g.identity], the linked
    accounts of the database session with what was last committed, the
    external-id links, the list objects that [extra_data] and local variables
    alias, and the calls that went out to the network. *)

(** A value stored in [account.extra_data]; a list is a reference to a list
    object of the heap. *)
Inductive jval : Type :=
| JNone
| JStr (s : string)
| JList (l : nat).

(** A value of a committed snapshot. *)
Inductive sval : Type :=
| SNone
| SStr (s : string)
| SList (l : list string).

Inductive event : Type :=
| RestGet (url : string)
| LdapSearch (filterstr : string).

Record world : Type := {
  session : session_t;
  g_identity : identity;
  accounts : gmap (Z * string) (gmap string jval);
  committed : gmap (Z * string) (gmap string sval);
  links : gset (string * string);
  heap : list (list string);
  log : list event;
}.

Definition set_session (f : session_t → session_t) (w : world) : world :=
  {| session := f (session w); g_identity := g_identity w; accounts := accounts w;
     committed := committed w; links := links w; heap := heap w; log := log w |}.

Definition set_g_identity (i : identity) (w : world) : world :=
  {| session := session w; g_identity := i; accounts := accounts w;
     committed := committed w; links := links w; heap := heap w; log := log w |}.

Definition set_accounts
    (f : gmap (Z * string) (gmap string jval) → gmap (Z * string) (gmap string jval))
    (w : world) : world :=
  {| session := session w; g_identity := g_identity w; accounts := f (accounts w);
     committed := committed w; links := links w; heap := heap w; log := log w |}.

Definition set_committed (c : gmap (Z * string) (gmap string sval)) (w : world) : world :=
  {| session := session w; g_identity := g_identity w; accounts := accounts w;
     committed := c; links := links w; heap := heap w; log := log w |}.

Definition set_links (f : gset (string * string) → gset (string * string))
    (w : world) : world :=
  {| session := session w; g_identity := g_identity w; accounts := accounts w;
     committed := committed w; links := f (links w); heap := heap w; log := log w |}.

Definition set_heap (f : list (list string) → list (list string)) (w : world) : world :=
  {| session := session w; g_identity := g_identity w; accounts := accounts w;
     committed := committed w; links := links w; heap := f (heap w); log := log w |}.

Definition add_event (e : event) (w : world) : world :=
  {| session := session w; g_identity := g_identity w; accounts := accounts w;
     committed := committed w; links := links w; heap := heap w; log := log w ++ [e] |}.

Definition is_ldap_search (e : event) : bool :=
  match e with
  | LdapSearch _ => true
  | RestGet _ => false
  end.

(** The number of directory searches among the calls that went out. *)
Definition ldap_searches (w : world) : nat :=
  length (List.filter is_ldap_search (log w)).

(** The number of calls of any kind that went out. *)
Definition network_calls (w : world) : nat := length (log w).

(** Computations on the world that may raise: the world at the point of
    the exception is kept. *)
Definition M (A : Type) : Type := world → result A * world.

Definition ret {A} (a : A) : M A := λ w, (Ok a, w).
Definition raise {A} (e : exn) : M A := λ w, (Raise e, w).
Definition lift {A} (r : result A) : M A := λ w, (r, w).
Definition gets {A} (f : world → A) : M A := λ w, (Ok (f w), w).
Definition modify (f : world → world) : M unit := λ w, (Ok tt, f w).

Definition mbind_M {A B} (m : M A) (k : A → M B) : M B :=
  λ w, match m w with
       | (Ok a, w') => k a w'
       | (Raise e, w') => (Raise e, w')
       end.

Notation "x <~ m ;; k" := (mbind_M m (λ x, k))
  (at level 100, m at next level, right associativity).

(** The list object behind a reference. *)
Definition deref (l : nat) : M (list string) :=
  gets (λ w, default [] (heap w !! l)).

(** A new list object. *)
Definition alloc (xs : list string) : M nat :=
  λ w, (Ok (length (heap w)), set_heap (λ h, h ++ [xs]) w).

(** [db.session.commit()]: the snapshots are written with the contents the
    list objects have at that moment. *)
Definition materialize (h : list (list string)) (v : jval) : sval :=
  match v with
  | JNone => SNone
  | JStr s => SStr s
  | JList l => SList (default [] (h !! l))
  end.

Definition db_session_commit : M unit :=
  modify (λ w,
    set_committed ((λ ed : gmap string jval, materialize (heap w) <$> ed) <$> accounts w) w).

(** Modelled from the spec: [RemoteAccount.get] of
    [invenio_oauthclient.models], which looks up the linked account by
    (user, client credential) and yields [None] when there is none. *)
Definition RemoteAccount_get (user_id : Z) (client_id : string)
    : M (option (gmap string jval)) :=
  gets (λ w, accounts w !! (user_id, client_id)).

(** Modelled from the spec: [RemoteAccount.delete], which deletes the
    linked-account record. *)
Definition RemoteAccount_delete (user_id : Z) (client_id : string) : M unit :=
  modify (set_accounts (delete (user_id, client_id))).

(** Modelled from the spec: [oauth_unlink_external_id] of
    [invenio_oauthclient.utils], which removes the external-id link if
    present. *)
Definition oauth_unlink_external_id (id : string) (method : string) : M unit :=
  modify (set_links (λ l, l ∖ {[ (id, method) ]})).

(** ** Environment of a call *)

(** A remote application of the OAuth client; [get_reply] is what
    [remote.get(REMOTE_APP_RESOURCE_API_URL)] answers. *)
Record remote_app : Type := {
  name : string;
  consumer_key : string;
  get_reply : result oauth_response;
}.

Record env : Type := {
  current_user : user;
  cfg : config;
  utcnow_check : datetime;
  utcnow_refresh : datetime;
  remote_apps : list remote_app;
  ldap_reply : result pyval;
}.

Definition REMOTE_APP_RESOURCE_API_URL : string :=
  "https://oauthresource.web.cern.ch/api/Me".

Definition find_remote_by_client_id (e : env) (client_id : string)
    : option remote_app :=
  List.find (λ remote, String.eqb (name remote) "cern"
                       && String.eqb (consumer_key remote) client_id)
            (remote_apps e).

(** ** Resource fetcher *)

Definition clear_cern_resource (w : world) : world :=
  set_session (λ s, {| cern_provides := cern_provides s; cern_resource := None |}) w.

Definition store_cern_resource (d : gmap string (list (option string))) (w : world)
    : world :=
  set_session (λ s, {| cern_provides := cern_provides s; cern_resource := Some d |}) w.

(** [session.pop('cern_resource', None)] *)
Definition session_pop_cern_resource
    : M (option (gmap string (list (option string)))) :=
  λ w, (Ok (cern_resource (session w)), clear_cern_resource w).

(** [session['cern_resource'] = d] *)
Definition session_set_cern_resource (d : gmap string (list (option string)))
    : M unit :=
  modify (store_cern_resource d).

(** [remote.get(REMOTE_APP_RESOURCE_API_URL)] *)
Definition remote_get (remote : option remote_app) : M oauth_response :=
  match remote with
  | None => raise AttributeError
  | Some remote =>
      _ <~ modify (add_event (RestGet REMOTE_APP_RESOURCE_API_URL));;
      lift (get_reply remote)
  end.

(** The directory lookup with the search it sends. *)
Definition directory_lookup (e : env) (u : user) : M resource :=
  _ <~ (if String.eqb (email u) "" then ret tt
        else modify (add_event (LdapSearch ("mail=*" +:+ email u +:+ "*"))));;
  lift (get_user_resources_ldap (ldap_reply e) u).

(** [if cached_resource:] holds for a stored dictionary that is not empty. *)
Definition truthy_dict (cached : option (gmap string (list (option string))))
    : option (gmap string (list (option string))) :=
  match cached with
  | Some d => if bool_decide (d = ∅) then None else Some d
  | None => None
  end.

Definition get_resource (e : env) (remote : option remote_app) : M resource :=
  cached_resource <~ session_pop_cern_resource;;
  match truthy_dict cached_resource with
  | Some cached_resource => ret (ResDict cached_resource)
  | None =>
      response <~ remote_get remote;;
      if (status response =? 200)%Z then
        let dict_response := get_dict_from_response response in
        _ <~ session_set_cern_resource dict_response;;
        ret (ResDict dict_response)
      else if is_authenticated (current_user e) then
        directory_lookup e (current_user e)
      else raise (HTTPException 400)
  end.

(** ** Extra-data refresh *)

(** [resource.get(key, [None])[0]] *)
Definition first_value (resource : gmap string (list (option string)))
    (key : string) : result (option string) :=
  match default [None] (resource !! key) !! 0%nat with
  | Some v => Ok v
  | None => Raise IndexError
  end.

Definition fetch_extra_data (resource : gmap string (list (option string)))
    : result (gmap string (option string)) :=
  person_id <- first_value resource "PersonID";;
  identity_class <- first_value resource "IdentityClass";;
  department <- first_value resource "Department";;
  Ok (list_to_map [ ("person_id", person_id);
                    ("identity_class", identity_class);
                    ("department", department) ]).

(** [resource['Group']] *)
Definition resource_groups (r : resource) : result (list (option string)) :=
  match r with
  | ResDict d =>
      match d !! "Group" with
      | Some groups => Ok groups
      | None => Raise KeyError
      end
  | ResJsonify _ => Raise TypeError
  end.

(** The group names of a resource are strings; [regexp.match] raises
    [TypeError] on anything else. *)
Fixpoint group_names (groups : list (option string)) : result (list string) :=
  match groups with
  | [] => Ok []
  | Some g :: rest => names <- group_names rest;; Ok (g :: names)
  | None :: _ => Raise TypeError
  end.

Definition scalar (v : option string) : jval :=
  match v with
  | Some s => JStr s
  | None => JNone
  end.

(** [account.extra_data.update(groups=groups, updated=..., **extra_data)]:
    a key of [extra_data] that repeats a keyword raises [TypeError]; the
    keys are bound to the given objects. *)
Definition extra_data_update (groups : nat) (updated : string)
    (extra_data : gmap string (option string)) (account_extra_data : gmap string jval)
    : result (gmap string jval) :=
  if bool_decide (is_Some (extra_data !! "groups") ∨ is_Some (extra_data !! "updated"))
  then Raise TypeError
  else Ok ((scalar <$> extra_data)
           ∪ <["updated" := JStr updated]> (<["groups" := JList groups]> account_extra_data)).

(** [account] is the row of the linked account, named by its key; the
    result is the new list object of filtered groups.  The source does not
    use [refresh_timedelta]. *)
Definition account_groups_and_extra_data (e : env) (account : Z * string)
    (resource : resource) (refresh_timedelta : option timedelta) : M nat :=
  let updated := utcnow_refresh e in
  raw <~ lift (resource_groups resource);;
  names <~ lift (group_names raw);;
  groups <~ alloc (fetch_groups (cfg e) names);;
  extra_data <~ lift (match resource with
                      | ResDict d =>
                          config_get (cfg_extra_data_serializer (cfg e)) fetch_extra_data d
                      | ResJsonify _ => Raise TypeError
                      end);;
  row <~ gets (λ w, default ∅ (accounts w !! account));;
  row <~ lift (extra_data_update groups (isoformat updated) extra_data row);;
  _ <~ modify (set_accounts (<[account := row]>));;
  _ <~ db_session_commit;;
  ret groups.

(** ** Identity hooks *)

(** The names a loop over the value of [groups] visits. *)
Definition iter_names (groups : jval) : M (list string) :=
  match groups with
  | JList l => deref l
  | JStr s => ret ((λ c, String c EmptyString) <$> String.list_ascii_of_string s)
  | JNone => raise TypeError
  end.

(** The value of [account.extra_data.get('updated', None)] as the argument
    of the staleness test: a stored string, or a value that is not one. *)
Definition as_updated (v : option jval) : option string :=
  match v with
  | Some (JStr s) => Some s
  | _ => None
  end.

(** [groups.extend(more)] on list objects *)
Definition list_extend (l more : nat) : M unit :=
  more <~ deref more;;
  modify (set_heap (λ h, alter (λ xs, xs ++ more) l h)).

Definition on_identity_changed (e : env) (idt : identity) : M identity :=
  if is_anonymous idt then ret idt
  else
    client_id <~ lift (match cfg_consumer_key (cfg e) with
                       | Some k => Ok k
                       | None => Raise KeyError
                       end);;
    account <~ RemoteAccount_get (user_id (current_user e)) client_id;;
    match account with
    | None => ret idt
    | Some extra_data =>
        groups <~ match extra_data !! "groups" with
                  | Some v => ret v
                  | None => l <~ alloc [];; ret (JList l)
                  end;;
        let resources_last_updated := as_updated (extra_data !! "updated") in
        let refresh_timedelta :=
          config_get (cfg_refresh_timedelta (cfg e))
                     (Some OAUTHCLIENT_CERN_REFRESH_TIMEDELTA) in
        stale <~ lift (should_refresh_groups (utcnow_check e)
                         resources_last_updated refresh_timedelta);;
        _ <~ (if stale : bool then
                let remote := find_remote_by_client_id e client_id in
                resource <~ get_resource e remote;;
                target <~ lift (match groups with
                                | JList l => Ok l
                                | _ => Raise AttributeError
                                end);;
                more <~ account_groups_and_extra_data e
                          (user_id (current_user e), client_id) resource
                          refresh_timedelta;;
                list_extend target more
              else ret tt);;
        names <~ iter_names groups;;
        session <~ gets session;;
        let '(idt, session) :=
          extend_identity (email (current_user e)) idt names session in
        _ <~ modify (set_session (λ _, session));;
        ret idt
    end.

Definition on_identity_loaded (idt : identity) : M identity :=
  session <~ gets session;;
  ret {| is_anonymous := is_anonymous idt;
         provides := provides idt ∪ default ∅ (cern_provides session) |}.

(** ** Disconnect *)

Inductive http_response : Type :=
| Unauthorized
| Redirect (endpoint : string).

(** [if external_id:] *)
Definition truthy_jval (v : jval) : M bool :=
  match v with
  | JNone => ret false
  | JStr s => ret (negb (String.eqb s ""))
  | JList l => xs <~ deref l;; ret (negb (bool_decide (length xs = 0%nat)))
  end.

Definition disconnect_handler (e : env) (remote : remote_app) : M http_response :=
  if negb (is_authenticated (current_user e)) then ret Unauthorized
  else
    account <~ RemoteAccount_get (user_id (current_user e)) (consumer_key remote);;
    external_id <~ lift (match account with
                         | Some extra_data => Ok (default JNone (extra_data !! "external_id"))
                         | None => Raise AttributeError
                         end);;
    has_id <~ truthy_jval external_id;;
    _ <~ (if has_id : bool then
            match external_id with
            | JStr id => oauth_unlink_external_id id "cern"
            | _ => ret tt
            end
          else ret tt);;
    _ <~ (match account with
          | Some _ =>
              RemoteAccount_delete (user_id (current_user e)) (consumer_key remote)
          | None => ret tt
          end);;
    idt <~ gets g_identity;;
    session <~ gets session;;
    let '(r, session) := disconnect_identity idt session in
    _ <~ modify (set_session (λ _, session));;
    idt <~ lift r;;
    _ <~ modify (set_g_identity idt);;
    ret (Redirect "invenio_oauthclient_settings.index").

(** ** Sample data *)

Module Sample.

Definition alice : user :=
  {| user_id := 7; email := "a@b.com"; is_authenticated := true |}.

Definition empty_session : session_t :=
  {| cern_provides := None; cern_resource := None |}.

Definition plain_identity : identity :=
  {| is_anonymous := false; provides := {[ UserNeed (AInt 7) ]} |}.

(** An identity that already holds the role of the group [CMS]. *)
Definition cms_identity : identity :=
  {| is_anonymous := false; provides := {[ RoleNeed "cms@cern.ch" ]} |}.

Definition empty_world : world :=
  {| session := empty_session; g_identity := plain_identity; accounts := ∅;
     committed := ∅; links := ∅; heap := []; log := [] |}.

(** The directory entry of the user, with the mail in another case. *)
Definition alice_entry : pyval :=
  PTuple [ PStr "CN=alice,OU=Users,OU=Organic Units,DC=cern,DC=ch";
           PDict [ ("mail", PList [PBytes "A@B.com"]);
                   ("memberOf", PList [PBytes "CN=GroupX,OU=e-groups,DC=cern,DC=ch";
                                       PBytes "CN=cms-members,OU=e-groups,DC=cern,DC=ch"]);
                   ("displayName", PList [PBytes "Alice A"]);
                   ("uidNumber", PList [PBytes "1234"]);
                   ("department", PList [PBytes "EP"]) ] ].

(** The directory entry of somebody else whose mail contains the query. *)
Definition other_entry : pyval :=
  PTuple [ PStr "CN=anna,OU=Users,OU=Organic Units,DC=cern,DC=ch";
           PDict [ ("mail", PList [PBytes "anna@b.com"]);
                   ("memberOf", PList [PBytes "CN=atlas-members,OU=e-groups,DC=cern,DC=ch"]);
                   ("displayName", PList [PBytes "Anna B"]);
                   ("uidNumber", PList [PBytes "4321"]);
                   ("department", PList [PBytes "TH"]) ] ].

(** An entry without the [mail] attribute. *)
Definition mailless_entry : pyval :=
  PTuple [ PStr "CN=svc,OU=Users,OU=Organic Units,DC=cern,DC=ch";
           PDict [ ("displayName", PList [PBytes "Service"]) ] ].

(** [lc.result()]: the result type and the entries found. *)
Definition search_result (entries : list pyval) : result pyval :=
  Ok (PTuple [PInt 101; PList entries]).

Definition group_claims : list claim :=
  [ {| Type_ := "http://schemas.xmlsoap.org/claims/Group"; Value := "admins" |};
    {| Type_ := "http://schemas.xmlsoap.org/claims/Group"; Value := "users" |} ].

Definition ok_response : oauth_response :=
  {| status := 200; resp_code := Some 200%Z; data := group_claims |}.

Definition error_response : oauth_response :=
  {| status := 500; resp_code := Some 500%Z; data := [] |}.

(** A claim whose type carries the schema URI after a scheme name. *)
Definition urn_response : oauth_response :=
  {| status := 200; resp_code := Some 200%Z;
     data := [ {| Type_ := "urn:http://schemas.xmlsoap.org/claims/Group";
                  Value := "admins" |} ] |}.

Definition cern_remote (reply : result oauth_response) : remote_app :=
  {| name := "cern"; consumer_key := "changeme"; get_reply := reply |}.

Definition env_of (reply : result oauth_response) (directory : result pyval)
    (check refresh : datetime) : env :=
  {| current_user := alice; cfg := default_config;
     utcnow_check := check; utcnow_refresh := refresh;
     remote_apps := [cern_remote reply]; ldap_reply := directory |}.

(** A world where the user has a linked account that was refreshed more
    than twenty minutes before [sample_now], a link to an external id, and a
    role cache in the session. *)
Definition linked_extra_data : gmap string jval :=
  list_to_map [ ("external_id", JStr "1234");
                ("groups", JList 0);
                ("updated", JStr "2024-02-29T23:40:00.000000") ].

Definition linked_world : world :=
  {| session := {| cern_provides := Some (derived_provides "a@b.com" ["old-group"]);
                   cern_resource := None |};
     g_identity := {| is_anonymous := false;
                      provides := {[ UserNeed (AInt 7) ]}
                                  ∪ derived_provides "a@b.com" ["old-group"] |};
     accounts := {[ (7%Z, "changeme") := linked_extra_data ]};
     committed := ∅;
     links := {[ ("1234", "cern") ]};
     heap := [["old-group"]];
     log := [] |}.

(** The REST resource is down, the directory knows the user. *)
Definition env_rest_down : env :=
  env_of (Ok error_response) (search_result [alice_entry]) sample_now sample_now.

Definition env_rest_up : env :=
  env_of (Ok ok_response) (search_result [alice_entry]) sample_now sample_now.

End Sample.

(** * Sign-up, schema and directory data *)

(** ** Sign-up hooks *)

(** [resource.get('uidNumber', resource.get('PersonID', [None]))[0]] *)
Definition external_id_of (resource : gmap string (list (option string)))
    : result (option string) :=
  let person_id := default [None] (resource !! "PersonID") in
  match default person_id (resource !! "uidNumber") !! 0%nat with
  | Some v => Ok v
  | None => Raise IndexError
  end.

(** The dictionary [account_info] returns. *)
Record account_user : Type := {
  au_email : string;
  au_profile : gmap string (option string);
}.

Record account_info_t : Type := {
  ai_user : account_user;
  ai_external_id : option string;
  ai_external_method : string;
  ai_active : bool;
}.

(** [account_info] on the resource it fetched: the response object of
    [jsonify] has no [get]; [email.lower()] needs a string. *)
Definition account_info_of (c : config) (resource : resource)
    : result account_info_t :=
  match resource with
  | ResJsonify _ => Raise AttributeError
  | ResDict resource =>
      email <- first_value resource "EmailAddress";;
      external_id <- external_id_of resource;;
      extra_data <- config_get (cfg_extra_data_serializer c) fetch_extra_data resource;;
      email <- match email with
               | Some email => Ok (Text.lower email)
               | None => Raise AttributeError
               end;;
      Ok {| ai_user := {| au_email := email; au_profile := extra_data |};
            ai_external_id := external_id;
            ai_external_method := "cern";
            ai_active := true |}
  end.

Definition account_info (e : env) (remote : option remote_app) : M account_info_t :=
  resource <~ get_resource e remote;;
  lift (account_info_of (cfg e) resource).

(** How [account_setup] is left when no exception of the module's own
    operations is raised: it returns, or its assertion fails. *)
Inductive setup_exit : Type :=
| Returned
| AssertionFailed.

(** Modelled from the spec: [oauth_link_external_id] of
    [invenio_oauthclient.utils], which creates the link between the
    external id and the local user.  The store of links holds string ids;
    a call without an id stores nothing. *)
Definition oauth_link_external_id (id : option string) (method : string) : M unit :=
  match id with
  | Some id => modify (set_links (λ l, {[ (id, method) ]} ∪ l))
  | None => ret tt
  end.

(** [account] names the row of [token.remote_account]. *)
Definition account_setup (e : env) (remote : option remote_app) (account : Z * string)
    : M setup_exit :=
  resource <~ get_resource e remote;;
  external_id <~ lift (match resource with
                       | ResDict resource => external_id_of resource
                       | ResJsonify _ => Raise AttributeError
                       end);;
  _ <~ modify (set_accounts (<[account := {[ "external_id" := scalar external_id ]}]>));;
  groups <~ account_groups_and_extra_data e account resource None;;
  idt <~ gets g_identity;;
  if is_anonymous idt then ret AssertionFailed
  else
    names <~ deref groups;;
    session <~ gets session;;
    let '(idt, session) :=
      extend_identity (email (current_user e)) idt names session in
    _ <~ modify (set_g_identity idt);;
    _ <~ modify (set_session (λ _, session));;
    _ <~ oauth_link_external_id external_id "cern";;
    ret Returned.

(** ** The user-info schema of [serializers.py] *)

Definition get_external_id (obj : gmap string (list (option string)))
    : result (option string) :=
  let person_id := default [None] (obj !! "PersonID") in
  match default person_id (obj !! "uidNumber") !! 0%nat with
  | Some v => Ok v
  | None => Raise IndexError
  end.

Definition get_email (obj : gmap string (list (option string)))
    : result (option string) :=
  first_value obj "EmailAddress".

Definition get_groups (c : config) (obj : gmap string (list (option string)))
    : result (list string) :=
  names <- group_names (default [] (obj !! "Group"));;
  Ok (fetch_groups c names).

Definition get_profile (obj : gmap string (list (option string)))
    : result (gmap string (option string)) :=
  common_name <- first_value obj "CommonName";;
  display_name <- first_value obj "DisplayName";;
  first_name <- first_value obj "Firstname";;
  last_name <- first_value obj "Lastname";;
  department <- first_value obj "Department";;
  building <- first_value obj "Building";;
  home_institute <- first_value obj "HomeInstitute";;
  Ok (list_to_map [ ("common_name", common_name);
                    ("display_name", display_name);
                    ("first_name", first_name);
                    ("last_name", last_name);
                    ("department", department);
                    ("building", building);
                    ("home_institute", home_institute) ]).

(** ** Datetimes of the calendar *)

(** A datetime as the constructor of [datetime] accepts it. *)
Definition valid_datetime (dt : datetime) : Prop :=
  (1 ≤ year dt ≤ 9999 ∧ 1 ≤ month dt ≤ 12
   ∧ 1 ≤ day dt ≤ days_in_month (year dt) (month dt)
   ∧ 0 ≤ hour dt < 24 ∧ 0 ≤ minute dt < 60 ∧ 0 ≤ second dt < 60
   ∧ 0 ≤ microsecond dt < 1000000)%Z.

(** ** Group names in the directory *)






(** ** Sample data of a sign-up *)

Module SampleSignUp.

Import Sample.

(** The claims of a user with an email address, a person id and two
    groups. *)
Definition profile_claims : list claim :=
  [ {| Type_ := "http://schemas.xmlsoap.org/claims/EmailAddress"; Value := "A@B.com" |};
    {| Type_ := "http://schemas.xmlsoap.org/claims/PersonID"; Value := "1234" |};
    {| Type_ := "http://schemas.xmlsoap.org/claims/Group"; Value := "admins" |};
    {| Type_ := "http://schemas.xmlsoap.org/claims/Group"; Value := "users" |} ].

Definition profile_response : oauth_response :=
  {| status := 200; resp_code := Some 200%Z; data := profile_claims |}.

Definition env_sign_up : env :=
  env_of (Ok profile_response) (search_result [alice_entry]) sample_now sample_now.

(** The record the directory lookup returns for [alice_entry]. *)
Definition alice_record : gmap string (list (option string)) :=
  list_to_map
    [ ("Group", [Some "GroupX"; Some "cms-members"]);
      ("EmailAddress", [Some "a@b.com"]);
      ("uidNumber", [Some "1234"]);
      ("CommonName", [None]);
      ("Firstname", [Some "Alice A"]);
      ("Lastname", [Some "Alice A"]);
      ("DisplayName", [Some "Alice A"]);
      ("Building", [None]);
      ("Department", [Some "EP"]);
      ("PersonID", [None]);
      ("IdentityClass", [Some "EP"]) ].

(** What [account_info] returns on [alice_record]. *)
Definition alice_info : account_info_t :=
  {| ai_user := {| au_email := "a@b.com";
                   au_profile := list_to_map [ ("person_id", None);
                                               ("identity_class", Some "EP");
                                               ("department", Some "EP") ] |};
     ai_external_id := Some "1234";
     ai_external_method := "cern";
     ai_active := true |}.

(** A linked account that was refreshed two and a half minutes before
    [sample_now]. *)
Definition fresh_extra_data : gmap string jval :=
  list_to_map [ ("external_id", JStr "1234");
                ("groups", JList 0);
                ("updated", JStr "2024-03-01T00:00:00") ].

Definition fresh_world : world :=
  {| session := empty_session; g_identity := plain_identity;
     accounts := {[ (7%Z, "changeme") := fresh_extra_data ]};
     committed := ∅;
     links := {[ ("1234", "cern") ]};
     heap := [["old-group"]];
     log := [] |}.

(** A world whose identity is anonymous and whose session holds the record
    of the user. *)
Definition anonymous_world : world :=
  {| session := {| cern_provides := None; cern_resource := Some alice_record |};
     g_identity := {| is_anonymous := true; provides := ∅ |};
     accounts := ∅; committed := ∅; links := ∅; heap := []; log := [] |}.

End SampleSignUp.

(** * Properties *)

Import Sample.
#[local] Set Warnings "-clear-no-such-hyp".

Lemma append_nil_l (t : string) : "" +:+ t = t.
Proof. reflexivity. Qed.

Lemma append_cons c (s t : string) : String c s +:+ t = String c (s +:+ t).
Proof. reflexivity. Qed.

Lemma append_nil_r (s : string) : s +:+ "" = s.
Proof. induction s as [|c s IH]; [done | by rewrite append_cons, IH]. Qed.

Lemma append_eq_nil (s t : string) : s +:+ t = "" → s = "" ∧ t = "".
Proof. destruct s; [by rewrite append_nil_l | by rewrite append_cons]. Qed.

Lemma nullable_spec r : nullable r = true ↔ lang r "".
Proof.
  split.
  - induction r; simpl; intros H; try discriminate.
    + constructor.
    + apply andb_true_iff in H as [H1 H2].
      rewrite <- (append_nil_l ""). constructor; auto.
    + apply orb_true_iff in H as [H|H]; [apply lang_alt_l | apply lang_alt_r]; auto.
    + constructor.
  - intros H. remember "" as s eqn:Hs. induction H; simpl; auto; try discriminate.
    + apply append_eq_nil in Hs as [-> ->]. rewrite IHlang1, IHlang2; auto.
    + rewrite IHlang; auto.
    + rewrite IHlang; [apply orb_true_r | auto].
Qed.

Lemma lang_star_uncons r c s :
  lang (Star r) (String c s) →
  ∃ s1 s2, s = s1 +:+ s2 ∧ lang r (String c s1) ∧ lang (Star r) s2.
Proof.
  intros H. remember (Star r) as r' eqn:Hr. remember (String c s) as w eqn:Hw.
  revert Hr Hw. induction H; intros Hr Hw; try discriminate.
  injection Hr as ->. destruct s1 as [|d s1].
  - rewrite append_nil_l in Hw. auto.
  - rewrite append_cons in Hw. injection Hw as Hc Hs. subst. eauto.
Qed.

Lemma lang_cat_uncons r1 r2 c s :
  lang (Cat r1 r2) (String c s) →
  (∃ s1 s2, s = s1 +:+ s2 ∧ lang r1 (String c s1) ∧ lang r2 s2)
  ∨ (lang r1 "" ∧ lang r2 (String c s)).
Proof.
  inversion 1 as [| | |? ? s1 s2 H1 H2 Hr Hs | | | |]; subst.
  destruct s1 as [|d s1].
  - rewrite append_nil_l in Hs. subst. by right.
  - rewrite append_cons in Hs. injection Hs as Hc Hs. subst. left. eauto.
Qed.

Lemma lang_cat_cons r1 r2 c s1 s2 :
  lang r1 (String c s1) → lang r2 s2 → lang (Cat r1 r2) (String c (s1 +:+ s2)).
Proof. intros. rewrite <- append_cons. by constructor. Qed.

Lemma deriv_spec r : ∀ c s, lang (deriv c r) s ↔ lang r (String c s).
Proof.
  induction r; intros c' s; simpl.
  - split; inversion 1.
  - split; inversion 1.
  - destruct (Ascii.eqb_spec c' c) as [->|Hne]; split; inversion 1; subst;
      try constructor; congruence.
  - destruct (in_range lo hi c') eqn:E; split; inversion 1; subst;
      try (constructor; auto); congruence.
  - assert (Hcat : lang (Cat (deriv c' r1) r2) s → lang (Cat r1 r2) (String c' s)).
    { inversion 1; subst. apply lang_cat_cons; auto. by apply IHr1. }
    assert (Hinv : lang (Cat r1 r2) (String c' s) →
                   lang (Cat (deriv c' r1) r2) s ∨ (lang r1 "" ∧ lang (deriv c' r2) s)).
    { intros H. apply lang_cat_uncons in H as [(s1 & s2 & -> & H1 & H2)|[H1 H2]].
      - left. constructor; auto. by apply IHr1.
      - right. split; auto. by apply IHr2. }
    destruct (nullable r1) eqn:N.
    + split.
      * inversion 1; subst; auto.
        rewrite <- (append_nil_l (String c' s)). constructor.
        -- by apply nullable_spec.
        -- by apply IHr2.
      * intros H. destruct (Hinv H) as [H'|[_ H']];
          [by apply lang_alt_l | by apply lang_alt_r].
    + split; auto. intros H. destruct (Hinv H) as [H'|[H' _]]; auto.
      apply nullable_spec in H'. congruence.
  - split; inversion 1; subst.
    + apply lang_alt_l. by apply IHr1.
    + apply lang_alt_r. by apply IHr2.
    + apply lang_alt_l. by apply IHr1.
    + apply lang_alt_r. by apply IHr2.
  - split.
    + inversion 1; subst. rewrite <- append_cons.
      constructor; auto. by apply IHr.
    + intros H. apply lang_star_uncons in H as (s1 & s2 & -> & H1 & H2).
      constructor; auto. by apply IHr.
Qed.

Lemma re_match_spec r s : re_match r s = true ↔ matches_from_start r s.
Proof.
  revert r. induction s as [|c s IH]; intros r; simpl.
  - rewrite orb_false_r, nullable_spec. split.
    + intros H. by exists "", "".
    + intros (p & q & Hs & H). symmetry in Hs. by apply append_eq_nil in Hs as [-> _].
  - rewrite orb_true_iff, nullable_spec, IH. split.
    + intros [H | (p & q & -> & H)].
      * by exists "", (String c s).
      * exists (String c p), q. split; [done | by apply deriv_spec].
    + intros (p & q & Hs & H). destruct p as [|d p].
      * by left.
      * rewrite append_cons in Hs. injection Hs as Hc Hs. subst. right.
        exists p, q. split; [done | by apply deriv_spec].
Qed.

Lemma is_denied_spec exact res g : is_denied exact res g = true ↔ denied exact res g.
Proof.
  unfold is_denied, denied.
  rewrite orb_true_iff, bool_decide_eq_true, existsb_exists.
  setoid_rewrite <- list_elem_of_In. setoid_rewrite re_match_spec. done.
Qed.

Lemma filter_ext_elem {A} (P Q : A → Prop) `{∀ x, Decision (P x)} `{∀ x, Decision (Q x)}
    (l : list A) :
  (∀ x, x ∈ l → P x ↔ Q x) → filter P l = filter Q l.
Proof.
  induction l as [|a l IH]; intros HPQ; [done|].
  rewrite !filter_cons.
  rewrite IH by (intros x Hx; apply HPQ; by right).
  destruct (decide (P a)) as [HP|HP], (decide (Q a)) as [HQ|HQ]; try done;
    exfalso; apply (HPQ a) in HP || apply (HPQ a) in HQ; done || by left.
Qed.

Lemma inner_loop_elem regexp (groups acc : list string) g :
  g ∈ foldl (λ filter_groups group,
               if re_match regexp group then filter_groups ++ [group] else filter_groups)
            acc groups
  ↔ g ∈ acc ∨ (g ∈ groups ∧ re_match regexp g = true).
Proof.
  revert acc. induction groups as [|x groups IH]; intros acc; simpl.
  - rewrite elem_of_nil. tauto.
  - rewrite IH, elem_of_cons. destruct (re_match regexp x) eqn:E.
    + rewrite elem_of_app, list_elem_of_singleton. split.
      * intros [[Ha | ->] | [Ha Hb]]; auto.
      * intros [Ha | [[-> | Ha] Hb]]; auto.
    + split.
      * intros [Ha | [Ha Hb]]; auto.
      * intros [Ha | [[-> | Ha] Hb]]; auto. congruence.
Qed.

Lemma collect_matches_elem res groups g :
  g ∈ collect_matches res groups
  ↔ g ∈ groups ∧ existsb (λ r, re_match r g) res = true.
Proof.
  unfold collect_matches.
  assert (G : ∀ acc,
    g ∈ foldl (λ filter_groups regexp,
           foldl (λ filter_groups group,
                    if re_match regexp group
                    then filter_groups ++ [group]
                    else filter_groups)
                 filter_groups groups) acc res
    ↔ g ∈ acc ∨ (g ∈ groups ∧ existsb (λ r, re_match r g) res = true)).
  { induction res as [|r res IH]; intros acc; simpl.
    - split; [intros Ha; by left | intros [Ha | [Ha Hb]]; done].
    - rewrite IH, inner_loop_elem, orb_true_iff. tauto. }
  rewrite G, elem_of_nil. tauto.
Qed.

(** C6: the result is the input list without the groups that equal an
    entry of the exact deny-list or that a pattern of the regex deny-list
    matches from the start; the remaining groups keep their order, and the
    empty list yields the empty list.  The function is total. *)
Theorem fetch_groups_filter cfg groups :
  let exact := config_get (cfg_hidden_groups cfg) OAUTHCLIENT_CERN_HIDDEN_GROUPS in
  let res := config_get (cfg_hidden_groups_re cfg) OAUTHCLIENT_CERN_HIDDEN_GROUPS_RE in
  fetch_groups cfg groups = filter (λ g, is_denied exact res g = false) groups
  ∧ (∀ g, is_denied exact res g = true ↔ denied exact res g)
  ∧ fetch_groups cfg groups `sublist_of` groups
  ∧ fetch_groups cfg [] = [].
Proof.
  intros exact res.
  assert (E : fetch_groups cfg groups = filter (λ g, is_denied exact res g = false) groups).
  { unfold fetch_groups. fold exact res.
    rewrite (filter_ext_elem _ (λ g, existsb (λ r, re_match r g) res = false)).
    - rewrite list_filter_filter. apply list_filter_iff. intros g.
      unfold is_denied. rewrite orb_false_iff, bool_decide_eq_false. naive_solver.
    - intros g Hg. rewrite collect_matches_elem.
      destruct (existsb _ res); naive_solver. }
  split; [done|]. split; [apply is_denied_spec|]. split; [|done].
  rewrite E. apply sublist_filter.
Qed.

Lemma add_raises now td e : add now td = Raise e → e = OverflowError.
Proof.
  unfold add.
  destruct ((0 <? _)%Z && _); [|by intros [= <-]].
  by destruct (ord2ymd _) as [[y m] d].
Qed.

(** C1: without a stored timestamp the test does not return: ordering
    [None] against the threshold raises [TypeError], unless the threshold
    itself is out of range. *)
Theorem should_refresh_groups_None_raises now window :
  should_refresh_groups now None window = Raise TypeError
  ∨ should_refresh_groups now None window = Raise OverflowError.
Proof.
  unfold should_refresh_groups. destruct window as [td|].
  - destruct (add now td) as [t|e] eqn:Hadd; unfold bind, gt_str; [by left|].
    right. by rewrite (add_raises _ _ _ Hadd).
  - left. reflexivity.
Qed.

Example should_refresh_groups_None_default :
  should_refresh_groups sample_now None (Some OAUTHCLIENT_CERN_REFRESH_TIMEDELTA)
  = Raise TypeError.
Proof. reflexivity. Qed.

Lemma elem_of_derived_provides email groups n :
  n ∈ derived_provides email groups
  ↔ n = UserNeed (AStr email)
    ∨ ∃ name, name ∈ groups ∧ n = RoleNeed (Text.lower name +:+ "@cern.ch").
Proof.
  unfold derived_provides. rewrite elem_of_list_to_set, elem_of_cons, list_elem_of_fmap.
  split; intros [H | (name & H1 & H2)]; eauto.
Qed.

(** The set of the specification: the claim for the current user together
    with the role claim of every group. *)
Lemma derived_provides_union email groups :
  derived_provides email groups
  = {[ UserNeed (AStr email) ]}
    ∪ list_to_set ((λ name, RoleNeed (Text.lower name +:+ "@cern.ch")) <$> groups).
Proof. reflexivity. Qed.

(** Disconnecting with a stored cache removes the cached claims and clears
    the cache. *)
Lemma disconnect_identity_cached idt session cache :
  cern_provides session = Some cache →
  disconnect_identity idt session
  = (Ok {| is_anonymous := is_anonymous idt; provides := provides idt ∖ cache |},
     {| cern_provides := None; cern_resource := cern_resource session |}).
Proof. intros H. unfold disconnect_identity. by rewrite H. Qed.

(** C3, as amended: extending and then disconnecting leaves the claim set
    of the identity equal to its previous claims without the derived ones,
    which is the previous claim set exactly when the identity held none of
    the derived claims; the disconnect removes the claims recorded in the
    session role cache and clears the cache. *)
Theorem extend_then_disconnect email idt groups session :
  let '(idt1, session1) := extend_identity email idt groups session in
  ∃ idt2 session2,
    disconnect_identity idt1 session1 = (Ok idt2, session2)
    ∧ cern_provides session1 = Some (derived_provides email groups)
    ∧ provides idt2 = provides idt1 ∖ derived_provides email groups
    ∧ provides idt2 = provides idt ∖ derived_provides email groups
    ∧ (provides idt2 = provides idt ↔ provides idt ## derived_provides email groups)
    ∧ cern_provides session2 = None.
Proof.
  simpl. eexists _, _. split; [reflexivity|]. simpl.
  split; [done|]. split; [done|]. split; [set_solver|]. split; [|done].
  split; [intros H | intros H]; set_solver.
Qed.

(** C3: an identity that already holds a derived role claim loses it in
    the round trip. *)
Lemma round_trip_loses_claim :
  let '(idt1, session1) := extend_identity "a@cern.ch" Sample.cms_identity ["CMS"] Sample.empty_session in
  ∃ idt2 session2,
    disconnect_identity idt1 session1 = (Ok idt2, session2)
    ∧ provides idt2 ≠ provides Sample.cms_identity.
Proof.
  simpl. eexists _, _. split; [reflexivity|]. simpl.
  intros H.
  assert (Hin : RoleNeed "cms@cern.ch" ∈ ({[ RoleNeed "cms@cern.ch" ]} : gset Need))
    by by apply elem_of_singleton.
  rewrite <- H in Hin. apply elem_of_difference in Hin as [_ Hn]. apply Hn.
  apply elem_of_derived_provides. right. exists "CMS". split; [by apply list_elem_of_singleton | reflexivity].
Qed.

(** C7: after two extensions the session role cache holds exactly the
    claims derived from the second group list, and the disconnect that
    follows removes those claims and no other. *)
Theorem extend_twice_replaces_cache email idt G1 G2 session :
  let '(idt1, session1) := extend_identity email idt G1 session in
  let '(idt2, session2) := extend_identity email idt1 G2 session1 in
  cern_provides session2
  = Some ({[ UserNeed (AStr email) ]}
          ∪ list_to_set ((λ name, RoleNeed (Text.lower name +:+ "@cern.ch")) <$> G2))
  ∧ ∃ idt3 session3,
      disconnect_identity idt2 session2 = (Ok idt3, session3)
      ∧ cern_provides session3 = None
      ∧ ∀ n, n ∈ provides idt3
             ↔ n ∈ provides idt2
               ∧ n ≠ UserNeed (AStr email)
               ∧ ¬ ∃ name, name ∈ G2 ∧ n = RoleNeed (Text.lower name +:+ "@cern.ch").
Proof.
  simpl. split; [done|]. eexists _, _. split; [reflexivity|]. simpl. split; [done|].
  intros n. rewrite elem_of_difference, elem_of_derived_provides. tauto.
Qed.

(** C10: for an authenticated user the handler reads [extra_data] of the
    looked-up account before it tests the account: without a linked account
    it raises [AttributeError] and the world is as before; it returns only
    when a linked account exists; with a linked account and a stored role
    cache the flow completes. *)
Theorem disconnect_handler_requires_account e remote w :
  is_authenticated (current_user e) = true →
  let key := (user_id (current_user e), consumer_key remote) in
  (accounts w !! key = None →
   disconnect_handler e remote w = (Raise AttributeError, w))
  ∧ (∀ r w', disconnect_handler e remote w = (Ok r, w') → is_Some (accounts w !! key))
  ∧ (∀ extra_data cache,
       accounts w !! key = Some extra_data →
       cern_provides (session w) = Some cache →
       ∃ w', disconnect_handler e remote w
             = (Ok (Redirect "invenio_oauthclient_settings.index"), w')
             ∧ accounts w' = delete key (accounts w)
             ∧ provides (g_identity w') = provides (g_identity w) ∖ cache
             ∧ cern_provides (session w') = None
             ∧ ∀ id, extra_data !! "external_id" = Some (JStr id) → id ≠ "" →
                     links w' = links w ∖ {[ (id, "cern") ]}).
Proof.
  intros Hauth key.
  assert (Hnone : accounts w !! key = None →
                  disconnect_handler e remote w = (Raise AttributeError, w)).
  { intros Hacc. unfold disconnect_handler. rewrite Hauth. simpl.
    unfold mbind_M, RemoteAccount_get, gets. fold key. by rewrite Hacc. }
  split; [done|]. split.
  - intros r w' Hrun. destruct (accounts w !! key) eqn:Hacc; [by eexists|].
    rewrite Hnone in Hrun by done. discriminate.
  - intros extra_data cache Hacc Hcache.
    unfold disconnect_handler. rewrite Hauth. simpl.
    unfold mbind_M at 1. unfold RemoteAccount_get, gets at 1. fold key. rewrite Hacc.
    unfold mbind_M at 1. unfold lift at 1.
    destruct (extra_data !! "external_id") as [[| id | l]|] eqn:Hid; simpl.
    + unfold mbind_M, ret, modify, gets, RemoteAccount_delete, lift; simpl.
      rewrite (disconnect_identity_cached _ _ _ Hcache). simpl. eexists. split; [reflexivity|]. simpl. fold key.
      repeat split; try done.
    + unfold mbind_M, ret, modify, gets, RemoteAccount_delete, oauth_unlink_external_id,
        lift; simpl.
      destruct (String.eqb_spec id "") as [->|Hne]; simpl; rewrite (disconnect_identity_cached _ _ _ Hcache); simpl;
        (eexists; split; [reflexivity|]); simpl; fold key; repeat split; try done.
      all: intros id' [= <-] Hne'; done.
    + unfold mbind_M, ret, modify, gets, RemoteAccount_delete, deref, lift; simpl.
      destruct (negb _); simpl; rewrite (disconnect_identity_cached _ _ _ Hcache); simpl;
        (eexists; split; [reflexivity|]); simpl; fold key; repeat split; done.
    + unfold mbind_M, ret, modify, gets, RemoteAccount_delete, lift; simpl.
      rewrite (disconnect_identity_cached _ _ _ Hcache). simpl. eexists. split; [reflexivity|]. simpl. fold key.
      repeat split; try done.
Qed.

(** The fetcher touches the session slot and the log only. *)
Lemma directory_lookup_frame e u w :
  let w' := (directory_lookup e u w).2 in
  session w' = session w ∧ accounts w' = accounts w ∧ heap w' = heap w
  ∧ committed w' = committed w ∧ links w' = links w ∧ g_identity w' = g_identity w.
Proof.
  unfold directory_lookup, mbind_M, ret, modify, lift.
  destruct (String.eqb (email u) ""); simpl; done.
Qed.

(** C4, as amended: [get_resource] pops the session slot and returns its
    value when that is a non-empty record, without a network call; otherwise
    it queries the REST resource and on HTTP 200 normalises the response and
    stores it in the slot; otherwise, for an authenticated user, it falls
    back to the directory lookup, whose result is not stored; otherwise it
    aborts with 400.  After a call that stored a non-empty record the next
    call returns that record without a network call and leaves the slot
    empty. *)
Theorem get_resource_resolution e remote w :
  match truthy_dict (cern_resource (session w)) with
  | Some cached => get_resource e remote w = (Ok (ResDict cached), clear_cern_resource w)
  | None =>
      match remote with
      | None => get_resource e remote w = (Raise AttributeError, clear_cern_resource w)
      | Some r =>
          let w1 := add_event (RestGet REMOTE_APP_RESOURCE_API_URL)
                              (clear_cern_resource w) in
          match get_reply r with
          | Raise ex => get_resource e remote w = (Raise ex, w1)
          | Ok response =>
              if (status response =? 200)%Z then
                let d := get_dict_from_response response in
                get_resource e remote w = (Ok (ResDict d), store_cern_resource d w1)
                ∧ match truthy_dict (Some d) with
                  | Some _ =>
                      ∀ e' remote',
                        get_resource e' remote' (store_cern_resource d w1)
                        = (Ok (ResDict d), w1)
                  | None => True
                  end
              else if is_authenticated (current_user e) then
                get_resource e remote w = directory_lookup e (current_user e) w1
                ∧ cern_resource (session (directory_lookup e (current_user e) w1).2) = None
              else get_resource e remote w = (Raise (HTTPException 400), w1)
          end
      end
  end.
Proof.
  unfold get_resource, mbind_M, session_pop_cern_resource.
  destruct (truthy_dict (cern_resource (session w))) as [cached|] eqn:Hc; [done|].
  destruct remote as [r|]; [|done]. simpl.
  unfold mbind_M, modify, lift. destruct (get_reply r) as [response|ex]; [|done].
  destruct (status response =? 200)%Z.
  - split; [done|]. simpl.
    destruct (bool_decide (get_dict_from_response response = ∅)); [done|].
    intros e' remote'. reflexivity.
  - destruct (is_authenticated (current_user e)); [|done]. split; [done|].
    by destruct (directory_lookup_frame e (current_user e)
      (add_event (RestGet REMOTE_APP_RESOURCE_API_URL) (clear_cern_resource w)))
      as (-> & _).
Qed.

(** C4: with the REST resource down every call repeats the directory
    search, and the stored record serves one later call only. *)
Lemma fallback_repeats_per_call :
  (let remote := Some (cern_remote (Ok error_response)) in
   let '(r1, w1) := get_resource env_rest_down remote empty_world in
   let '(r2, w2) := get_resource env_rest_down remote w1 in
   returns r1 ∧ r2 = r1 ∧ ldap_searches w1 = 1 ∧ ldap_searches w2 = 2)
  ∧ (let remote := Some (cern_remote (Ok ok_response)) in
     let '(r1, w1) := get_resource env_rest_up remote empty_world in
     let '(r2, w2) := get_resource env_rest_up remote w1 in
     let '(r3, w3) := get_resource env_rest_up remote w2 in
     returns r1 ∧ r2 = r1 ∧ r3 = r1
     ∧ network_calls w1 = 1 ∧ network_calls w2 = 1 ∧ network_calls w3 = 2).
Proof.
  split.
  - vm_compute. split; [by eexists|]. done.
  - vm_compute. split; [by eexists|]. done.
Qed.

(** C2: a search that finds no entry makes the lookup raise. *)
Theorem ldap_not_found_raises :
  get_user_resources_ldap (search_result []) alice = Raise AttributeError.
Proof. reflexivity. Qed.

(** An entry without a [mail] attribute makes the lookup raise. *)
Lemma ldap_missing_mail_raises :
  get_user_resources_ldap (search_result [mailless_entry]) alice = Raise KeyError.
Proof. reflexivity. Qed.

(** An answer that is not a sequence makes the lookup raise. *)
Lemma ldap_malformed_raises :
  get_user_resources_ldap (Ok PNone) alice = Raise AttributeError.
Proof. reflexivity. Qed.

(** An entry with another mail yields no group but its own profile fields. *)
Lemma ldap_mismatch_keeps_profile :
  ∃ d, get_user_resources_ldap (search_result [other_entry]) alice = Ok (ResDict d)
       ∧ d !! "Group" = Some []
       ∧ d !! "uidNumber" = Some [Some "4321"]
       ∧ d !! "DisplayName" = Some [Some "Anna B"]
       ∧ d ≠ ldap_defaults (email alice).
Proof.
  eexists. split; [reflexivity|]. split; [reflexivity|]. split; [reflexivity|].
  split; [reflexivity|]. intros H.
  apply (f_equal (λ m : gmap string (list (option string)), m !! "uidNumber")) in H.
  vm_compute in H. discriminate.
Qed.

(** An empty email yields the response object of [jsonify([])]. *)
Lemma ldap_empty_email reply u :
  email u = "" → get_user_resources_ldap reply u = Ok (ResJsonify (PList [])).
Proof. intros H. unfold get_user_resources_ldap. by rewrite H. Qed.

(** The directory scenario of the specification: the mail matches in
    another case and the groups are read off the distinguished names. *)
Example ldap_case_insensitive_match :
  ∃ d, get_user_resources_ldap (search_result [alice_entry]) alice = Ok (ResDict d)
       ∧ d !! "Group" = Some [Some "GroupX"; Some "cms-members"]
       ∧ d !! "EmailAddress" = Some [Some "a@b.com"]
       ∧ d !! "Building" = Some [None].
Proof. eexists. repeat split; reflexivity. Qed.

(** [setdefault] followed by [append] is one insertion. *)
Lemma setdefault_append (k : string) v (m : gmap string (list (option string))) :
  alter (λ l, l ++ [v]) k (setdefault k [] m) = <[k := default [] (m !! k) ++ [v]]> m.
Proof.
  unfold setdefault. apply map_eq. intros j.
  destruct (m !! k) as [l|] eqn:Hk; simpl.
  - destruct (decide (k = j)) as [<-|Hne].
    + by rewrite lookup_alter_eq, lookup_insert_eq, Hk.
    + by rewrite lookup_alter_ne, lookup_insert_ne.
  - destruct (decide (k = j)) as [<-|Hne].
    + by rewrite lookup_alter_eq, !lookup_insert_eq.
    + by rewrite lookup_alter_ne, !lookup_insert_ne.
Qed.

Lemma foldl_ext_all {A B} (f g : A → B → A) (l : list B) (a : A) :
  (∀ a b, f a b = g a b) → foldl f a l = foldl g a l.
Proof. intros H. revert a. induction l as [|b l IH]; intros a; simpl; [done|]. by rewrite H, IH. Qed.

Lemma get_dict_from_response_fold response :
  get_dict_from_response response
  = if match resp_code response with Some code => (400 <? code)%Z | None => false end
    then ∅
    else group_claims_by (Text.remove_all REMOTE_APP_RESOURCE_SCHEMA) (data response).
Proof.
  unfold get_dict_from_response, group_claims_by.
  destruct (match resp_code response with Some _ => _ | None => _ end); [done|].
  apply foldl_ext_all. intros m i. apply setdefault_append.
Qed.

Lemma group_claims_by_lookup_from field_name k claims
    (m : gmap string (list (option string))) :
  foldl (λ result i,
           let k := field_name (Type_ i) in
           <[k := default [] (result !! k) ++ [Some (Value i)]]> result)
        m claims !! k
  = match values_of field_name k claims with
    | [] => m !! k
    | vs => Some (default [] (m !! k) ++ vs)
    end.
Proof.
  revert m. induction claims as [|i claims IH]; intros m; [reflexivity|].
  simpl. rewrite IH. unfold values_of. rewrite filter_cons.
  destruct (decide (field_name (Type_ i) = k)) as [<-|Hne].
  - rewrite fmap_cons, lookup_insert_eq.
    generalize ((λ i0, Some (Value i0)) <$>
                filter (λ i0, field_name (Type_ i0) = field_name (Type_ i)) claims).
    intros [|v vs]; simpl; [done|]. by rewrite <- app_assoc.
  - by rewrite lookup_insert_ne.
Qed.

Lemma group_claims_by_lookup field_name k claims :
  group_claims_by field_name claims !! k
  = match values_of field_name k claims with
    | [] => None
    | vs => Some vs
    end.
Proof.
  unfold group_claims_by. rewrite group_claims_by_lookup_from, lookup_empty. simpl.
  done.
Qed.

(** Skipping the rest of an occurrence. *)
Lemma remove_from_skip old p s :
  Text.remove_from old (String.length p) (p +:+ s) = Text.remove_from old 0 s.
Proof.
  induction p as [|c p IH]; [done|]. by rewrite append_cons.
Qed.

Lemma prefix_append p s : String.prefix p (p +:+ s) = true.
Proof.
  induction p as [|c p IH]; [by destruct s|].
  rewrite append_cons. simpl. by destruct (ascii_dec c c).
Qed.

Lemma remove_from_0 old c s :
  Text.remove_from old 0 (String c s)
  = if String.prefix old (String c s)
    then Text.remove_from old (String.length old - 1) s
    else String c (Text.remove_from old 0 s).
Proof. reflexivity. Qed.

(** A leading occurrence is removed first. *)
Lemma remove_all_prefix old s :
  old ≠ "" → Text.remove_all old (old +:+ s) = Text.remove_all old s.
Proof.
  destruct old as [|c old]; [done|]. intros _.
  unfold Text.remove_all. rewrite append_cons, remove_from_0.
  rewrite <- append_cons, prefix_append.
  replace (String.length (String c old) - 1) with (String.length old)
    by (simpl; lia).
  apply remove_from_skip.
Qed.

Lemma contains_cons old c s :
  Text.contains old (String c s) = String.prefix old (String c s) || Text.contains old s.
Proof. reflexivity. Qed.

(** Without an occurrence nothing is removed. *)
Lemma remove_all_absent old s : Text.contains old s = false → Text.remove_all old s = s.
Proof.
  unfold Text.remove_all. induction s as [|c s IH]; intros Habs; [done|].
  rewrite contains_cons in Habs. apply orb_false_iff in Habs as [Hp Hrest].
  by rewrite remove_from_0, Hp, IH.
Qed.

(** C9, as amended: an error response yields the empty record; otherwise
    every claim is filed under its type with the occurrences of the schema
    URI removed, which strips the URI when the type starts with it, and the
    values of a field are listed in arrival order. *)
Theorem get_dict_from_response_spec response :
  let field_name := Text.remove_all REMOTE_APP_RESOURCE_SCHEMA in
  get_dict_from_response response
  = (if match resp_code response with Some code => (400 <? code)%Z | None => false end
     then ∅
     else group_claims_by field_name (data response))
  ∧ (∀ k claims,
       group_claims_by field_name claims !! k
       = match values_of field_name k claims with
         | [] => None
         | vs => Some vs
         end)
  ∧ (∀ name, Text.contains REMOTE_APP_RESOURCE_SCHEMA name = false →
             field_name (REMOTE_APP_RESOURCE_SCHEMA +:+ name) = name)
  ∧ get_dict_from_response ok_response = {[ "Group" := [Some "admins"; Some "users"] ]}.
Proof.
  intros field_name. split; [apply get_dict_from_response_fold|].
  split; [intros; apply group_claims_by_lookup|].
  split; [intros name Habs; unfold field_name;
          by rewrite remove_all_prefix, remove_all_absent by done|].
  vm_compute. reflexivity.
Qed.

(** C9: a claim type that carries the schema URI elsewhere than at its start
    is filed under the type without the URI, not under the type as it is. *)
Lemma replace_is_not_prefix_stripping :
  get_dict_from_response urn_response !! "urn:Group" = Some [Some "admins"]
  ∧ normalize (data urn_response) !! "urn:Group" = None
  ∧ get_dict_from_response urn_response ≠ normalize (data urn_response).
Proof.
  assert (H1 : get_dict_from_response urn_response !! "urn:Group" = Some [Some "admins"])
    by (vm_compute; reflexivity).
  assert (H2 : normalize (data urn_response) !! "urn:Group" = None)
    by (vm_compute; reflexivity).
  split; [done|]. split; [done|]. intros H. rewrite H, H2 in H1. discriminate.
Qed.

Lemma mbind_M_ok {A B} (m : M A) (k : A → M B) w a w' :
  m w = (Ok a, w') → mbind_M m k w = k a w'.
Proof. intros H. unfold mbind_M. by rewrite H. Qed.

(** The fetcher leaves the accounts, the heap and the role cache alone. *)
Lemma get_resource_frame e remote w :
  let w' := (get_resource e remote w).2 in
  accounts w' = accounts w ∧ heap w' = heap w ∧ committed w' = committed w
  ∧ links w' = links w ∧ g_identity w' = g_identity w
  ∧ cern_provides (session w') = cern_provides (session w).
Proof.
  unfold get_resource, mbind_M, session_pop_cern_resource.
  destruct (truthy_dict _); [done|].
  destruct remote as [r|]; [|done]. simpl.
  unfold mbind_M, modify, lift. destruct (get_reply r) as [response|ex]; [|done].
  destruct (status response =? 200)%Z; [done|].
  destruct (is_authenticated (current_user e)); [|done].
  destruct (directory_lookup_frame e (current_user e)
    (add_event (RestGet REMOTE_APP_RESOURCE_API_URL) (clear_cern_resource w)))
    as (H1 & H2 & H3 & H4 & H5 & H6).
  rewrite H1, H2, H3, H4, H5, H6. done.
Qed.

(** The refresh step on a resource dictionary: a new list object holds the
    filtered groups, the row of the account points to it, and the commit
    writes the row. *)
Lemma account_groups_and_extra_data_run e key d raw names extra row w :
  d !! "Group" = Some raw →
  group_names raw = Ok names →
  config_get (cfg_extra_data_serializer (cfg e)) fetch_extra_data d = Ok extra →
  extra !! "groups" = None →
  extra !! "updated" = None →
  accounts w !! key = Some row →
  let fresh := fetch_groups (cfg e) names in
  let n := length (heap w) in
  let row' := (scalar <$> extra)
              ∪ <["updated" := JStr (isoformat (utcnow_refresh e))]>
                  (<["groups" := JList n]> row) in
  let accounts' := <[key := row']> (accounts w) in
  let heap' := heap w ++ [fresh] in
  ∀ refresh_timedelta,
  account_groups_and_extra_data e key (ResDict d) refresh_timedelta w
  = (Ok n,
     {| session := session w; g_identity := g_identity w; accounts := accounts';
        committed := (λ ed : gmap string jval, materialize heap' <$> ed) <$> accounts';
        links := links w; heap := heap'; log := log w |}).
Proof.
  intros HG Hn Hs Hg Hu Hrow fresh n row' accounts' heap' refresh_timedelta.
  unfold account_groups_and_extra_data.
  unfold mbind_M, lift, alloc, gets, modify, db_session_commit, ret. simpl.
  rewrite HG, Hn, Hs. simpl. rewrite Hrow. simpl.
  unfold extra_data_update. rewrite bool_decide_eq_false_2.
  2:{ rewrite Hg, Hu. intros [[? ?]|[? ?]]; discriminate. }
  reflexivity.
Qed.

(** C5: on a stale linked account the identity is extended with the cached
    groups followed by the newly filtered ones, while the row of the account
    and the committed snapshot hold the newly filtered groups only. *)
Theorem on_identity_changed_extends_and_replaces
    e idt w client_id extra_data l cached d raw names extra w1 :
  is_anonymous idt = false →
  cfg_consumer_key (cfg e) = Some client_id →
  accounts w !! (user_id (current_user e), client_id) = Some extra_data →
  extra_data !! "groups" = Some (JList l) →
  heap w !! l = Some cached →
  should_refresh_groups (utcnow_check e) (as_updated (extra_data !! "updated"))
    (config_get (cfg_refresh_timedelta (cfg e)) (Some OAUTHCLIENT_CERN_REFRESH_TIMEDELTA))
  = Ok true →
  get_resource e (find_remote_by_client_id e client_id) w = (Ok (ResDict d), w1) →
  d !! "Group" = Some raw →
  group_names raw = Ok names →
  config_get (cfg_extra_data_serializer (cfg e)) fetch_extra_data d = Ok extra →
  extra !! "groups" = None →
  extra !! "updated" = None →
  let key := (user_id (current_user e), client_id) in
  let fresh := fetch_groups (cfg e) names in
  let claims := derived_provides (email (current_user e)) (cached ++ fresh) in
  ∃ idt' w',
    on_identity_changed e idt w = (Ok idt', w')
    ∧ provides idt' = provides idt ∪ claims
    ∧ cern_provides (session w') = Some claims
    ∧ (∃ snapshot, committed w' !! key = Some snapshot
                   ∧ snapshot !! "groups" = Some (SList fresh))
    ∧ (∃ row l', accounts w' !! key = Some row
                 ∧ row !! "groups" = Some (JList l')
                 ∧ heap w' !! l' = Some fresh)
    ∧ heap w' !! l = Some (cached ++ fresh).
Proof.
  intros Hanon Hkey Hacc Hgroups Hl Hstale Hget HG Hn Hs Hg Hu key fresh claims.
  destruct (get_resource_frame e (find_remote_by_client_id e client_id) w)
    as (Fa & Fh & _). rewrite Hget in Fa, Fh. simpl in Fa, Fh.
  assert (Hacc1 : accounts w1 !! key = Some extra_data) by by rewrite Fa.
  assert (Hlt : l < length (heap w)) by by eapply lookup_lt_Some.
  pose proof (account_groups_and_extra_data_run e key d raw names extra extra_data w1
                HG Hn Hs Hg Hu Hacc1) as Hrun.
  simpl in Hrun. fold fresh in Hrun. rewrite Fh, Fa in Hrun.
  unfold on_identity_changed. rewrite Hanon, Hkey.
  erewrite mbind_M_ok by reflexivity.
  assert (Hlook : RemoteAccount_get (user_id (current_user e)) client_id w
                  = (Ok (Some extra_data), w)).
  { unfold RemoteAccount_get, gets. by rewrite Hacc. }
  erewrite mbind_M_ok by exact Hlook.
  cbv beta iota. rewrite Hgroups.
  erewrite mbind_M_ok by reflexivity.
  rewrite Hstale.
  erewrite mbind_M_ok by reflexivity.
  cbv beta iota.
  erewrite (mbind_M_ok (mbind_M _ _)).
  2:{ erewrite mbind_M_ok by exact Hget.
      erewrite mbind_M_ok by reflexivity.
      erewrite mbind_M_ok by apply Hrun.
      unfold list_extend, deref. erewrite mbind_M_ok by reflexivity.
      unfold modify. reflexivity. }
  unfold iter_names, deref. erewrite mbind_M_ok by reflexivity.
  erewrite mbind_M_ok by reflexivity.
  cbn [heap set_heap session accounts committed].
  rewrite lookup_app_r by lia. rewrite Nat.sub_diag. simpl.
  eexists _, _. split; [reflexivity|]. simpl.
  assert (Hheap : ∀ i xs, (heap w ++ [fresh]) !! i = Some xs → i ≠ l →
            alter (λ xs, xs ++ fresh) l (heap w ++ [fresh]) !! i = Some xs).
  { intros i xs Hi Hne. by rewrite list_lookup_alter_ne. }
  assert (Hold : alter (λ xs, xs ++ fresh) l (heap w ++ [fresh]) !! l
                 = Some (cached ++ fresh)).
  { rewrite list_lookup_alter_eq, lookup_app_l, Hl by done. done. }
  rewrite Hold. simpl.
  split; [done|]. split; [done|]. split; [|split; [|done]].
  - eexists. split.
    + rewrite lookup_fmap, lookup_insert_eq. simpl. reflexivity.
    + rewrite lookup_fmap, lookup_union_r.
      2:{ by rewrite lookup_fmap, Hg. }
      rewrite lookup_insert_ne by done. rewrite lookup_insert_eq. simpl.
      rewrite lookup_app_r by lia. by rewrite Nat.sub_diag.
  - eexists _, (length (heap w)). split; [apply lookup_insert_eq|]. split.
    + rewrite lookup_union_r.
      2:{ by rewrite lookup_fmap, Hg. }
      rewrite lookup_insert_ne by done. by rewrite lookup_insert_eq.
    + apply Hheap; [|lia]. rewrite lookup_app_r by lia. by rewrite Nat.sub_diag.
Qed.

Section Calendar.

Local Open Scope Z_scope.

(** ** Order of ISO strings *)

Lemma compare_cons c1 c2 s1 s2 :
  String.compare (String c1 s1) (String c2 s2)
  = lex (Ascii.compare c1 c2) (String.compare s1 s2).
Proof. simpl. by destruct (Ascii.compare c1 c2). Qed.

Lemma ascii_compare_refl c : Ascii.compare c c = Eq.
Proof. unfold Ascii.compare. apply N.compare_refl. Qed.

Lemma compare_same_prefix p s1 s2 :
  String.compare (p +:+ s1) (p +:+ s2) = String.compare s1 s2.
Proof.
  induction p as [|c p IH]; [done|].
  by rewrite !append_cons, compare_cons, ascii_compare_refl.
Qed.

Lemma digit_compare a b :
  0 ≤ a ≤ 9 → 0 ≤ b ≤ 9 → Ascii.compare (digit a) (digit b) = (a ?= b).
Proof.
  intros Ha Hb.
  assert (Ea : a = 0 ∨ a = 1 ∨ a = 2 ∨ a = 3 ∨ a = 4 ∨ a = 5 ∨ a = 6 ∨ a = 7
               ∨ a = 8 ∨ a = 9) by lia.
  assert (Eb : b = 0 ∨ b = 1 ∨ b = 2 ∨ b = 3 ∨ b = 4 ∨ b = 5 ∨ b = 6 ∨ b = 7
               ∨ b = 8 ∨ b = 9) by lia.
  destruct Ea as [->|[->|[->|[->|[->|[->|[->|[->|[->| ->]]]]]]]]];
    destruct Eb as [->|[->|[->|[->|[->|[->|[->|[->|[->| ->]]]]]]]]]; reflexivity.
Qed.

Lemma lex_compare_digits hi1 lo1 hi2 lo2 base :
  0 ≤ lo1 < base → 0 ≤ lo2 < base →
  lex (hi1 ?= hi2) (lo1 ?= lo2) = (hi1 * base + lo1 ?= hi2 * base + lo2).
Proof.
  intros H1 H2. symmetry.
  destruct (Z.compare_spec hi1 hi2) as [->|Hlt|Hgt]; simpl.
  - destruct (Z.compare_spec lo1 lo2); [apply Z.compare_eq_iff | apply Z.compare_lt_iff
      | apply Z.compare_gt_iff]; lia.
  - apply Z.compare_lt_iff. nia.
  - apply Z.compare_gt_iff. nia.
Qed.

(** Zero-padded numbers of the same width compare as numbers. *)
Lemma zero_padded_compare w a b s1 s2 :
  0 ≤ a → 0 ≤ b →
  String.compare (zero_padded w a +:+ s1) (zero_padded w b +:+ s2)
  = lex (a mod 10 ^ Z.of_nat w ?= b mod 10 ^ Z.of_nat w) (String.compare s1 s2).
Proof.
  intros Ha Hb. induction w as [|w IH].
  - simpl zero_padded. rewrite !append_nil_l.
    change (10 ^ Z.of_nat 0) with 1. by rewrite !Z.mod_1_r.
  - simpl zero_padded. rewrite !append_cons, compare_cons, IH.
    assert (Hp : 0 < 10 ^ Z.of_nat w) by (apply Z.pow_pos_nonneg; lia).
    assert (Hdig : ∀ n, 0 ≤ n / 10 ^ Z.of_nat w mod 10 ≤ 9).
    { intros n. pose proof (Z.mod_pos_bound (n / 10 ^ Z.of_nat w) 10). lia. }
    rewrite digit_compare by apply Hdig.
    rewrite Nat2Z.inj_succ, Z.pow_succ_r by lia.
    assert (Hd : ∀ n, 0 ≤ n →
      n mod (10 * 10 ^ Z.of_nat w)
      = (n / 10 ^ Z.of_nat w mod 10) * 10 ^ Z.of_nat w + n mod 10 ^ Z.of_nat w).
    { intros n Hn. rewrite (Z.mul_comm 10), Z.rem_mul_r by lia. lia. }
    rewrite (Hd a), (Hd b) by done.
    rewrite <- (lex_compare_digits _ _ _ _ (10 ^ Z.of_nat w))
      by (apply Z.mod_pos_bound; lia).
    by destruct (_ ?= _), (_ ?= _).
Qed.

Lemma fraction_compare u1 u2 :
  0 ≤ u1 < 1000000 → 0 ≤ u2 < 1000000 →
  String.compare (if u1 =? 0 then "" else "." +:+ zero_padded 6 u1)
                 (if u2 =? 0 then "" else "." +:+ zero_padded 6 u2)
  = (u1 ?= u2).
Proof.
  intros H1 H2.
  assert (Hzp : ∀ a b, 0 ≤ a < 1000000 → 0 ≤ b < 1000000 →
            String.compare ("." +:+ zero_padded 6 a) ("." +:+ zero_padded 6 b) = (a ?= b)).
  { intros a b Ha Hb. rewrite compare_same_prefix.
    rewrite <- (append_nil_r (zero_padded 6 a)), <- (append_nil_r (zero_padded 6 b)).
    rewrite zero_padded_compare by lia.
    change (10 ^ Z.of_nat 6) with 1000000. rewrite !Z.mod_small by lia.
    simpl. by destruct (a ?= b). }
  destruct (Z.eqb_spec u1 0) as [->|N1], (Z.eqb_spec u2 0) as [->|N2].
  - done.
  - symmetry. apply Z.compare_lt_iff. lia.
  - symmetry. apply Z.compare_gt_iff. lia.
  - by apply Hzp.
Qed.

(** ISO strings compare as the fields do. *)
Lemma isoformat_compare d1 d2 :
  printable d1 → printable d2 →
  String.compare (isoformat d1) (isoformat d2) = fields_compare d1 d2.
Proof.
  intros (Hy1 & Hm1 & Hd1 & Hh1 & Hi1 & Hs1 & Hu1) (Hy2 & Hm2 & Hd2 & Hh2 & Hi2 & Hs2 & Hu2).
  unfold isoformat, fields_compare.
  rewrite zero_padded_compare, compare_same_prefix by lia.
  rewrite zero_padded_compare, compare_same_prefix by lia.
  rewrite zero_padded_compare, compare_same_prefix by lia.
  rewrite zero_padded_compare, compare_same_prefix by lia.
  rewrite zero_padded_compare, compare_same_prefix by lia.
  rewrite zero_padded_compare, fraction_compare by lia.
  change (10 ^ Z.of_nat 4) with 10000. change (10 ^ Z.of_nat 2) with 100.
  by rewrite !Z.mod_small by lia.
Qed.

(** ** The calendar *)

Lemma month_day_table :
  forallb (month_day_ok false) (map Z.of_nat (seq 0%nat 365%nat)) = true
  ∧ forallb (month_day_ok true) (map Z.of_nat (seq 0%nat 366%nat)) = true.
Proof. split; vm_compute; reflexivity. Qed.

Lemma month_day_spec (leapyear : bool) (n : Z) :
  0 ≤ n < 365 + (if leapyear then 1 else 0) →
  let '(m, d) := month_day leapyear n in
  1 ≤ m ≤ 12
  ∧ 1 ≤ d ≤ DAYS_IN_MONTH m + (if (m =? 2) && leapyear then 1 else 0)
  ∧ DAYS_BEFORE_MONTH m + (if (2 <? m) && leapyear then 1 else 0) + d = n + 1.
Proof.
  intros Hn.
  assert (Hok : month_day_ok leapyear n = true).
  { destruct month_day_table as [Hf Ht].
    destruct leapyear; [pose proof Ht as H | pose proof Hf as H];
      rewrite forallb_forall in H; apply H; apply in_map_iff;
      exists (Z.to_nat n); (split; [lia|]); apply in_seq; lia. }
  unfold month_day_ok in Hok. destruct (month_day leapyear n) as [m d].
  repeat (apply andb_true_iff in Hok as [Hok ?]). lia.
Qed.

Lemma days_in_month_eq y m :
  1 ≤ m ≤ 12 →
  days_in_month y m = DAYS_IN_MONTH m + (if (m =? 2) && is_leap y then 1 else 0).
Proof.
  intros Hm. unfold days_in_month.
  destruct (Z.eqb_spec m 2) as [->|Hne]; simpl; [by destruct (is_leap y)|]. lia.
Qed.

Lemma is_leap_spec y :
  is_leap y = true ↔ y mod 4 = 0 ∧ (y mod 100 ≠ 0 ∨ y mod 400 = 0).
Proof.
  unfold is_leap. rewrite andb_true_iff, orb_true_iff, negb_true_iff.
  rewrite !Z.eqb_eq, Z.eqb_neq. tauto.
Qed.

Lemma ord2ymd_month_day N :
  ord2ymd N
  = let n := N - 1 in
    let n400 := n / DI400Y in
    let n := n mod DI400Y in
    let n100 := n / DI100Y in
    let n := n mod DI100Y in
    let n4 := n / DI4Y in
    let n := n mod DI4Y in
    let n1 := n / 365 in
    let n := n mod 365 in
    let y := n400 * 400 + 1 + n100 * 100 + n4 * 4 + n1 in
    if (n1 =? 4) || (n100 =? 4) then (y - 1, 12, 31)
    else
      let leapyear := (n1 =? 3) && (negb (n4 =? 24) || (n100 =? 3)) in
      let '(m, d) := month_day leapyear n in (y, m, d).
Proof.
  unfold ord2ymd, month_day. cbv zeta.
  destruct (_ || _); [done|]. by destruct (_ <? _).
Qed.

(** [_ord2ymd] yields a date of the calendar whose ordinal is the one it
    was given. *)
Lemma ord2ymd_spec N :
  1 ≤ N ≤ MAXORDINAL →
  let '(y, m, d) := ord2ymd N in
  1 ≤ y ≤ 9999 ∧ 1 ≤ m ≤ 12 ∧ 1 ≤ d ≤ days_in_month y m ∧ ymd2ord y m d = N.
Proof.
  unfold MAXORDINAL. intros HN. rewrite ord2ymd_month_day. cbv zeta.
  unfold DI400Y, DI100Y, DI4Y.
  pose proof (Z.div_mod (N - 1) 146097 ltac:(lia)) as E0.
  pose proof (Z.mod_pos_bound (N - 1) 146097 ltac:(lia)) as B0.
  set (a := (N - 1) / 146097) in *. set (r0 := (N - 1) mod 146097) in *.
  pose proof (Z.div_mod r0 36524 ltac:(lia)) as E1.
  pose proof (Z.mod_pos_bound r0 36524 ltac:(lia)) as B1.
  set (b := r0 / 36524) in *. set (r1 := r0 mod 36524) in *.
  pose proof (Z.div_mod r1 1461 ltac:(lia)) as E2.
  pose proof (Z.mod_pos_bound r1 1461 ltac:(lia)) as B2.
  set (c := r1 / 1461) in *. set (r2 := r1 mod 1461) in *.
  pose proof (Z.div_mod r2 365 ltac:(lia)) as E3.
  pose proof (Z.mod_pos_bound r2 365 ltac:(lia)) as B3.
  set (e := r2 / 365) in *. set (r3 := r2 mod 365) in *.
  clearbody a r0 b r1 c r2 e r3.
  assert (Ha : 0 ≤ a ≤ 24) by lia.
  assert (Hb : 0 ≤ b ≤ 4) by lia.
  assert (Hc : 0 ≤ c ≤ 24) by lia.
  assert (He : 0 ≤ e ≤ 4) by lia.
  destruct ((e =? 4) || (b =? 4)) eqn:Hspecial.
  - apply orb_true_iff in Hspecial. rewrite !Z.eqb_eq in Hspecial.
    set (Y := a * 400 + 1 + b * 100 + c * 4 + e - 1).
    assert (HY : Y = a * 400 + b * 100 + c * 4 + e) by (unfold Y; lia).
    assert (Hleap : is_leap Y = true).
    { apply is_leap_spec. rewrite HY. clear HY Y.
      destruct Hspecial as [-> | ->]; Z.to_euclidean_division_equations; lia. }
    unfold ymd2ord, days_in_month, days_before_month, days_before_year.
    rewrite Hleap. simpl.
    rewrite HY. clear Hleap HY Y.
    split; [destruct Hspecial as [-> | ->]; lia|]. split; [lia|]. split; [lia|].
    destruct Hspecial as [-> | ->]; Z.to_euclidean_division_equations; lia.
  - apply orb_false_iff in Hspecial as [He4 Hb4]. rewrite Z.eqb_neq in He4, Hb4.
    set (leapyear := (e =? 3) && (negb (c =? 24) || (b =? 3))).
    set (Y := a * 400 + 1 + b * 100 + c * 4 + e).
    assert (Hleap : is_leap Y = leapyear).
    { apply eq_true_iff_eq. rewrite is_leap_spec. unfold leapyear, Y.
      rewrite andb_true_iff, orb_true_iff, negb_true_iff, !Z.eqb_eq, Z.eqb_neq.
      split.
      - intros [H4 H100]. split; [Z.to_euclidean_division_equations; lia|].
        destruct (decide (c = 24)) as [->|]; [right|by left].
        destruct H100 as [H100|H400]; Z.to_euclidean_division_equations; lia.
      - intros [-> Hcb]. split; [Z.to_euclidean_division_equations; lia|].
        destruct (decide (c = 24)) as [->|Hc24].
        + right. assert (b = 3) as -> by lia.
          Z.to_euclidean_division_equations; lia.
        + left. Z.to_euclidean_division_equations; lia. }
    pose proof (month_day_spec leapyear r3 ltac:(destruct leapyear; lia)) as Hmd.
    destruct (month_day leapyear r3) as [m d]. destruct Hmd as (Hm & Hd & Hsum).
    rewrite days_in_month_eq by done. rewrite Hleap.
    assert (HY : 1 ≤ Y ≤ 9999).
    { unfold Y. destruct (decide (a = 24)) as [->|]; [|lia].
      destruct (decide (b = 3)) as [->|]; [|lia].
      destruct (decide (c = 24)) as [->|]; lia. }
    split; [done|]. split; [done|]. split; [done|].
    unfold ymd2ord, days_before_month, days_before_year. rewrite Hleap.
    assert (HdY : (Y - 1) * 365 + (Y - 1) / 4 - (Y - 1) / 100 + (Y - 1) / 400
                  = 146097 * a + 36524 * b + 1461 * c + 365 * e).
    { unfold Y. clear Hleap Hsum Hd. Z.to_euclidean_division_equations. lia. }
    cbv zeta. rewrite HdY. lia.
Qed.

Lemma days_before_year_lt y1 y2 :
  y1 < y2 →
  days_before_year y1 + 365 + (if is_leap y1 then 1 else 0) ≤ days_before_year y2.
Proof.
  intros Hlt. unfold days_before_year. cbv zeta.
  destruct (is_leap y1) eqn:Hleap.
  - apply is_leap_spec in Hleap. Z.to_euclidean_division_equations. lia.
  - assert (Hn : ¬ (y1 mod 4 = 0 ∧ (y1 mod 100 ≠ 0 ∨ y1 mod 400 = 0))).
    { rewrite <- is_leap_spec. congruence. }
    Z.to_euclidean_division_equations. lia.
Qed.

Lemma months_cases m :
  1 ≤ m ≤ 12 →
  m = 1 ∨ m = 2 ∨ m = 3 ∨ m = 4 ∨ m = 5 ∨ m = 6 ∨ m = 7 ∨ m = 8 ∨ m = 9
  ∨ m = 10 ∨ m = 11 ∨ m = 12.
Proof. lia. Qed.

Lemma days_before_month_lt y m1 m2 :
  1 ≤ m1 → m1 < m2 → m2 ≤ 12 →
  days_before_month y m1 + days_in_month y m1 ≤ days_before_month y m2.
Proof.
  intros H1 Hlt H2. unfold days_before_month, days_in_month.
  destruct (months_cases m1 ltac:(lia)) as [->|[->|[->|[->|[->|[->|[->|[->|[->|[->|[->| ->]]]]]]]]]]];
    destruct (months_cases m2 ltac:(lia)) as [->|[->|[->|[->|[->|[->|[->|[->|[->|[->|[->| ->]]]]]]]]]]];
    try lia; destruct (is_leap y); simpl; lia.
Qed.

Lemma days_in_year_bound y m d :
  1 ≤ m ≤ 12 → 1 ≤ d ≤ days_in_month y m →
  1 ≤ days_before_month y m + d ≤ 365 + (if is_leap y then 1 else 0).
Proof.
  intros Hm. unfold days_before_month, days_in_month.
  destruct (months_cases m Hm) as [->|[->|[->|[->|[->|[->|[->|[->|[->|[->|[->| ->]]]]]]]]]]];
    destruct (is_leap y); simpl; lia.
Qed.

(** Ordinals compare as the dates do. *)
Lemma ymd2ord_compare y1 m1 d1 y2 m2 d2 :
  1 ≤ m1 ≤ 12 → 1 ≤ d1 ≤ days_in_month y1 m1 →
  1 ≤ m2 ≤ 12 → 1 ≤ d2 ≤ days_in_month y2 m2 →
  ymd_compare y1 m1 d1 y2 m2 d2 = (ymd2ord y1 m1 d1 ?= ymd2ord y2 m2 d2).
Proof.
  intros Hm1 Hd1 Hm2 Hd2. unfold ymd_compare, ymd2ord. symmetry.
  pose proof (days_in_year_bound y1 m1 d1 Hm1 Hd1) as B1.
  pose proof (days_in_year_bound y2 m2 d2 Hm2 Hd2) as B2.
  destruct (Z.compare_spec y1 y2) as [->|Hy|Hy]; simpl.
  - destruct (Z.compare_spec m1 m2) as [->|Hm|Hm]; simpl.
    + destruct (Z.compare_spec d1 d2);
        [apply Z.compare_eq_iff | apply Z.compare_lt_iff | apply Z.compare_gt_iff]; lia.
    + apply Z.compare_lt_iff.
      pose proof (days_before_month_lt y2 m1 m2 ltac:(lia) Hm ltac:(lia)). lia.
    + apply Z.compare_gt_iff.
      pose proof (days_before_month_lt y2 m2 m1 ltac:(lia) Hm ltac:(lia)). lia.
  - apply Z.compare_lt_iff. pose proof (days_before_year_lt y1 y2 Hy). lia.
  - apply Z.compare_gt_iff. pose proof (days_before_year_lt y2 y1 Hy). lia.
Qed.

(** [_ord2ymd] is monotone: dates compare as their ordinals do. *)
Lemma ord2ymd_compare N1 N2 :
  1 ≤ N1 ≤ MAXORDINAL → 1 ≤ N2 ≤ MAXORDINAL →
  let '(y1, m1, d1) := ord2ymd N1 in
  let '(y2, m2, d2) := ord2ymd N2 in
  ymd_compare y1 m1 d1 y2 m2 d2 = (N1 ?= N2).
Proof.
  intros H1 H2. pose proof (ord2ymd_spec N1 H1) as S1.
  pose proof (ord2ymd_spec N2 H2) as S2.
  destruct (ord2ymd N1) as [[y1 m1] d1], (ord2ymd N2) as [[y2 m2] d2].
  destruct S1 as (_ & Hm1 & Hd1 & <-), S2 as (_ & Hm2 & Hd2 & <-).
  by apply ymd2ord_compare.
Qed.

Lemma lex_assoc c1 c2 c3 : lex (lex c1 c2) c3 = lex c1 (lex c2 c3).
Proof. by destruct c1. Qed.

(** The fields of a sum, read off its number of microseconds. *)
Lemma add_fields now td t :
  add now td = Ok t →
  let total := to_microseconds now + td in
  let days := total / US_PER_DAY in
  let rest := total mod US_PER_DAY in
  1 ≤ days ≤ MAXORDINAL
  ∧ ord2ymd days = (year t, month t, day t)
  ∧ rest = ((hour t * 60 + minute t) * 60 + second t) * 1000000 + microsecond t
  ∧ 0 ≤ hour t < 24 ∧ 0 ≤ minute t < 60 ∧ 0 ≤ second t < 60
  ∧ 0 ≤ microsecond t < 1000000.
Proof.
  unfold add. cbv zeta.
  set (total := to_microseconds now + td).
  destruct ((0 <? total / US_PER_DAY) && (total / US_PER_DAY <=? MAXORDINAL)) eqn:Hr;
    [|discriminate].
  apply andb_true_iff in Hr as [Hlo Hhi]. apply Z.ltb_lt in Hlo. apply Z.leb_le in Hhi.
  destruct (ord2ymd (total / US_PER_DAY)) as [[y m] d]. intros [= <-]. simpl.
  split; [lia|]. split; [done|].
  unfold US_PER_DAY, US_PER_SECOND in *.
  pose proof (Z.mod_pos_bound total (86400 * 1000000) ltac:(lia)).
  generalize dependent (total mod (86400 * 1000000)). intros rest Hrest.
  Z.to_euclidean_division_equations. lia.
Qed.

(** Sums of one datetime compare, field by field, as the deltas do. *)
Lemma add_compare now a b ta tb :
  add now a = Ok ta → add now b = Ok tb →
  fields_compare ta tb = (a ?= b) ∧ printable ta ∧ printable tb.
Proof.
  intros Ha Hb.
  destruct (add_fields _ _ _ Ha) as (Hda & Hya & Hra & Hha & Hma & Hsa & Hua).
  destruct (add_fields _ _ _ Hb) as (Hdb & Hyb & Hrb & Hhb & Hmb & Hsb & Hub).
  pose proof (ord2ymd_spec _ Hda) as Sa. rewrite Hya in Sa.
  pose proof (ord2ymd_spec _ Hdb) as Sb. rewrite Hyb in Sb.
  pose proof (ord2ymd_compare _ _ Hda Hdb) as Hcmp. rewrite Hya, Hyb in Hcmp.
  destruct Sa as (Sya & Sma & Sda & _), Sb as (Syb & Smb & Sdb & _).
  assert (Hdim : ∀ y m, 1 ≤ m ≤ 12 → days_in_month y m ≤ 31).
  { intros y m Hm. unfold days_in_month.
    destruct (months_cases m Hm) as [->|[->|[->|[->|[->|[->|[->|[->|[->|[->|[->| ->]]]]]]]]]]];
      destruct (is_leap y); simpl; lia. }
  pose proof (Hdim (year ta) _ Sma). pose proof (Hdim (year tb) _ Smb).
  split; [|split; unfold printable; lia].
  unfold fields_compare.
  rewrite <- !lex_assoc. rewrite (lex_assoc (year ta ?= year tb)).
  fold (ymd_compare (year ta) (month ta) (day ta) (year tb) (month tb) (day tb)).
  rewrite Hcmp. rewrite !lex_assoc.
  rewrite (lex_compare_digits (second ta) _ (second tb) _ 1000000) by lia.
  rewrite (lex_compare_digits (minute ta) _ (minute tb) _ (60 * 1000000)).
  2,3: lia.
  rewrite (lex_compare_digits (hour ta) _ (hour tb) _ (60 * 60 * 1000000)).
  2,3: lia.
  rewrite (lex_compare_digits _ _ _ _ US_PER_DAY).
  2,3: unfold US_PER_DAY, US_PER_SECOND; lia.
  set (Ta := to_microseconds now + a) in *. set (Tb := to_microseconds now + b) in *.
  assert (Ea : Ta = Ta / US_PER_DAY * US_PER_DAY + Ta mod US_PER_DAY).
  { rewrite Z.mul_comm. apply Z.div_mod. done. }
  assert (Eb : Tb = Tb / US_PER_DAY * US_PER_DAY + Tb mod US_PER_DAY).
  { rewrite Z.mul_comm. apply Z.div_mod. done. }
  replace (Ta / US_PER_DAY * US_PER_DAY
           + (hour ta * (60 * 60 * 1000000)
              + (minute ta * (60 * 1000000) + (second ta * 1000000 + microsecond ta))))
    with Ta by lia.
  replace (Tb / US_PER_DAY * US_PER_DAY
           + (hour tb * (60 * 60 * 1000000)
              + (minute tb * (60 * 1000000) + (second tb * 1000000 + microsecond tb))))
    with Tb by lia.
  unfold Ta, Tb. by rewrite Z.add_compare_mono_l.
Qed.

(** ISO strings of sums of one datetime compare as the deltas do. *)
Lemma add_isoformat_compare now a b ta tb :
  add now a = Ok ta → add now b = Ok tb →
  String.compare (isoformat ta) (isoformat tb) = (a ?= b).
Proof.
  intros Ha Hb. destruct (add_compare _ _ _ _ _ Ha Hb) as (Hc & Pa & Pb).
  by rewrite isoformat_compare.
Qed.

Lemma str_gt_spec a b : Text.str_gt a b = true ↔ String.compare a b = Gt.
Proof.
  unfold Text.str_gt, String.ltb. rewrite (String.compare_antisym a b).
  destruct (String.compare b a); cbn; split; congruence.
Qed.

Lemma should_refresh_groups_unfold now last_updated window :
  should_refresh_groups now (Some last_updated) window
  = (t <- threshold now window;; Ok (negb (Text.str_gt last_updated t))).
Proof.
  unfold should_refresh_groups, threshold, gt_str.
  destruct window as [w|].
  - unfold fmap, result_fmap. destruct (add now w) as [t|e]; unfold bind; [|done].
    by destruct (Text.str_gt _ _).
  - unfold bind. by destruct (Text.str_gt _ _).
Qed.

Lemma threshold_add now w t :
  add now w = Ok t → threshold now (Some w) = Ok (isoformat t).
Proof. intros H. unfold threshold, fmap, result_fmap. by rewrite H. Qed.

Lemma should_refresh_groups_of_threshold now last_updated window t :
  threshold now window = Ok t →
  should_refresh_groups now (Some last_updated) window
  = Ok (negb (Text.str_gt last_updated t)).
Proof. intros H. rewrite should_refresh_groups_unfold, H. reflexivity. Qed.

(** C8: with a stored timestamp the test answers false exactly when the
    timestamp is lexically greater than the ISO string of [now + window];
    with a window of minus five minutes a timestamp of one minute ago is
    fresh and a timestamp of ten minutes ago is stale. *)
Theorem should_refresh_groups_lexical :
  (∀ now last_updated window t,
     threshold now window = Ok t →
     (should_refresh_groups now (Some last_updated) window = Ok false
      ↔ String.compare last_updated t = Gt)
     ∧ (should_refresh_groups now (Some last_updated) window = Ok true
        ↔ String.compare last_updated t ≠ Gt))
  ∧ (∀ now t1 t5,
       add now (timedelta_minutes (-1)) = Ok t1 →
       add now (timedelta_minutes (-5)) = Ok t5 →
       should_refresh_groups now (Some (isoformat t1)) (Some (timedelta_minutes (-5)))
       = Ok false)
  ∧ (∀ now t10 t5,
       add now (timedelta_minutes (-10)) = Ok t10 →
       add now (timedelta_minutes (-5)) = Ok t5 →
       should_refresh_groups now (Some (isoformat t10)) (Some (timedelta_minutes (-5)))
       = Ok true).
Proof.
  split; [|split].
  - intros now lu window t Ht.
    rewrite (should_refresh_groups_of_threshold _ _ _ _ Ht), <- str_gt_spec.
    destruct (Text.str_gt lu t); cbn; split; split; congruence.
  - intros now t1 t5 H1 H5.
    rewrite (should_refresh_groups_of_threshold _ _ _ _ (threshold_add _ _ _ H5)).
    f_equal. apply negb_false_iff, str_gt_spec.
    rewrite (add_isoformat_compare now _ _ _ _ H1 H5). reflexivity.
  - intros now t10 t5 H10 H5.
    rewrite (should_refresh_groups_of_threshold _ _ _ _ (threshold_add _ _ _ H5)).
    f_equal. apply negb_true_iff, not_true_iff_false. rewrite str_gt_spec.
    rewrite (add_isoformat_compare now _ _ _ _ H10 H5). discriminate.
Qed.

End Calendar.

(** * Further properties *)

Import SampleSignUp.

(** ** Further properties of the group filter *)

Lemma fetch_groups_as_filter cfg groups :
  fetch_groups cfg groups
  = filter (λ g, is_denied
                   (config_get (cfg_hidden_groups cfg) OAUTHCLIENT_CERN_HIDDEN_GROUPS)
                   (config_get (cfg_hidden_groups_re cfg)
                               OAUTHCLIENT_CERN_HIDDEN_GROUPS_RE) g = false)
           groups.
Proof.
  unfold fetch_groups.
  set (exact := config_get (cfg_hidden_groups cfg) OAUTHCLIENT_CERN_HIDDEN_GROUPS).
  set (res := config_get (cfg_hidden_groups_re cfg) OAUTHCLIENT_CERN_HIDDEN_GROUPS_RE).
  rewrite (filter_ext_elem _ (λ g, existsb (λ r, re_match r g) res = false)).
  - rewrite list_filter_filter. apply list_filter_iff. intros g.
    unfold is_denied. rewrite orb_false_iff, bool_decide_eq_false. tauto.
  - intros g Hg. rewrite collect_matches_elem.
    destruct (existsb _ res).
    + split; [|done]. intros H. exfalso. apply H. by split.
    + split; [done|]. by intros _ [_ ?].
Qed.

(** X1: filtering an already filtered list changes nothing. *)
Theorem fetch_groups_idempotent cfg groups :
  fetch_groups cfg (fetch_groups cfg groups) = fetch_groups cfg groups.
Proof.
  rewrite !fetch_groups_as_filter. apply list_filter_filter_l. done.
Qed.

(** X2: the filter judges every group on its own: filtering a
    concatenation is concatenating the filtered parts, although the source
    collects the regex matches over the whole list first. *)
Theorem fetch_groups_app cfg groups1 groups2 :
  fetch_groups cfg (groups1 ++ groups2)
  = fetch_groups cfg groups1 ++ fetch_groups cfg groups2.
Proof. rewrite !fetch_groups_as_filter. apply filter_app. Qed.

(** ** The remote application of a client id *)

(** X3: the remote found is a remote application named [cern] with the
    given consumer key, the first such one; none is found exactly when no
    remote application qualifies. *)
Theorem find_remote_by_client_id_spec e client_id :
  match find_remote_by_client_id e client_id with
  | Some remote =>
      ∃ before after,
        remote_apps e = before ++ remote :: after
        ∧ name remote = "cern" ∧ consumer_key remote = client_id
        ∧ ∀ r, r ∈ before → ¬ (name r = "cern" ∧ consumer_key r = client_id)
  | None =>
      ∀ r, r ∈ remote_apps e → ¬ (name r = "cern" ∧ consumer_key r = client_id)
  end.
Proof.
  unfold find_remote_by_client_id.
  induction (remote_apps e) as [|r apps IH]; simpl.
  - intros r Hr. by apply elem_of_nil in Hr.
  - destruct (String.eqb (name r) "cern" && String.eqb (consumer_key r) client_id)
      eqn:Hm.
    + apply andb_true_iff in Hm as [Hn Hk].
      apply String.eqb_eq in Hn, Hk. exists [], apps. repeat split; try done.
      intros r' Hr'. by apply elem_of_nil in Hr'.
    + assert (Hno : ¬ (name r = "cern" ∧ consumer_key r = client_id)).
      { intros [Hn Hk]. rewrite Hn, Hk, !String.eqb_refl in Hm. discriminate. }
      destruct (find _ apps) as [remote|].
      * destruct IH as (before & after & -> & Hn & Hk & Hb).
        exists (r :: before), after. repeat split; try done.
        intros r' [->|Hr']%elem_of_cons; auto.
      * intros r' [->|Hr']%elem_of_cons; auto.
Qed.

(** ** Records of the directory lookup *)

Lemma bind_ok {A B} (m : result A) (k : A → result B) b :
  (x <- m;; k x) = Ok b → ∃ a, m = Ok a ∧ k a = Ok b.
Proof. destruct m as [a|e]; [by exists a | discriminate]. Qed.

(** A profile field of the directory is a list of one element. *)
Lemma get_ldap_field_str_singleton res key l :
  get_ldap_field_str res key = Ok l → ∃ v, l = [v].
Proof.
  unfold get_ldap_field_str. intros H.
  apply bind_ok in H as (x & _ & H). apply bind_ok in H as (value & _ & H).
  destruct (truthy value).
  - apply bind_ok in H as (s & _ & [= <-]). by eexists.
  - injection H as <-. by eexists.
Qed.

(** The shape of what the lookup returns. *)
Lemma get_user_resources_ldap_record reply u d :
  get_user_resources_ldap reply u = Ok (ResDict d) →
  ∃ groups uid cn dn building dept pid,
    d = list_to_map
          [ ("Group", Some <$> groups);
            ("EmailAddress", [Some (email u)]);
            ("uidNumber", [uid]);
            ("CommonName", [cn]);
            ("Firstname", [dn]);
            ("Lastname", [dn]);
            ("DisplayName", [dn]);
            ("Building", [building]);
            ("Department", [dept]);
            ("PersonID", [pid]);
            ("IdentityClass", [dept]) ].
Proof.
  unfold get_user_resources_ldap.
  destruct (String.eqb (email u) ""); [discriminate|].
  destruct (ldap_try_block _ _ _ _) as [[res groups] r]. intros H.
  apply bind_ok in H as (_ & _ & H).
  apply bind_ok in H as (uid & Huid & H).
  apply bind_ok in H as (cn & Hcn & H).
  apply bind_ok in H as (f & Hf & H).
  apply bind_ok in H as (l & Hl & H).
  apply bind_ok in H as (dn & Hdn & H).
  apply bind_ok in H as (b & Hb & H).
  apply bind_ok in H as (dept & Hdept & H).
  apply bind_ok in H as (pid & Hpid & H).
  apply bind_ok in H as (ic & Hic & H).
  injection H as <-.
  assert (f = dn) as -> by congruence. assert (l = dn) as -> by congruence.
  assert (ic = dept) as -> by congruence.
  apply get_ldap_field_str_singleton in Huid as [? ->], Hcn as [? ->], Hdn as [? ->],
    Hb as [? ->], Hdept as [? ->], Hpid as [? ->].
  by eexists _, _, _, _, _, _, _.
Qed.

(** X4: a record that the directory lookup returns has the eleven keys of
    the canonical resource, the queried email as its only email address and
    one element in every profile field; first name, last name and display
    name are the same value, and so are department and identity class. *)
Theorem get_user_resources_ldap_shape reply u d :
  get_user_resources_ldap reply u = Ok (ResDict d) →
  dom d = list_to_set [ "Group"; "EmailAddress"; "uidNumber"; "CommonName";
                        "Firstname"; "Lastname"; "DisplayName"; "Building";
                        "Department"; "PersonID"; "IdentityClass" ]
  ∧ d !! "EmailAddress" = Some [Some (email u)]
  ∧ (∀ key, key ≠ "Group" → ∀ l, d !! key = Some l → length l = 1)
  ∧ d !! "Firstname" = d !! "DisplayName"
  ∧ d !! "Lastname" = d !! "DisplayName"
  ∧ d !! "IdentityClass" = d !! "Department".
Proof.
  intros H. apply get_user_resources_ldap_record in H
    as (groups & uid & cn & dn & building & dept & pid & ->).
  split; [|split; [reflexivity|split; [|split; [reflexivity|split; reflexivity]]]].
  - rewrite dom_list_to_map_L. reflexivity.
  - intros key Hkey l Hl.
    apply elem_of_list_to_map_2 in Hl. simpl in Hl.
    repeat (apply elem_of_cons in Hl as [[= -> ->]|Hl]; [done|]).
    by apply elem_of_nil in Hl.
Qed.

(** ** Group names out of distinguished names *)












(** ** The identity hooks *)

(** X6: the identity-changed hook does nothing for an anonymous identity
    and nothing for a user without linked account: the identity and the
    world are as before and nothing is raised. *)
Theorem on_identity_changed_skips e idt w :
  (is_anonymous idt = true → on_identity_changed e idt w = (Ok idt, w))
  ∧ (∀ client_id,
       is_anonymous idt = false →
       cfg_consumer_key (cfg e) = Some client_id →
       accounts w !! (user_id (current_user e), client_id) = None →
       on_identity_changed e idt w = (Ok idt, w)).
Proof.
  split.
  - intros H. unfold on_identity_changed. by rewrite H.
  - intros client_id Hanon Hkey Hacc. unfold on_identity_changed.
    rewrite Hanon, Hkey.
    unfold mbind_M, lift, RemoteAccount_get, gets. by rewrite Hacc.
Qed.

(** X7: on a linked account whose data is fresh the hook extends the
    identity with the cached groups and replaces the role cache; it makes
    no network call and leaves the accounts, the committed snapshots, the
    list objects and the resource slot as they are. *)
Theorem on_identity_changed_fresh e idt w client_id extra_data l cached :
  is_anonymous idt = false →
  cfg_consumer_key (cfg e) = Some client_id →
  accounts w !! (user_id (current_user e), client_id) = Some extra_data →
  extra_data !! "groups" = Some (JList l) →
  heap w !! l = Some cached →
  should_refresh_groups (utcnow_check e) (as_updated (extra_data !! "updated"))
    (config_get (cfg_refresh_timedelta (cfg e)) (Some OAUTHCLIENT_CERN_REFRESH_TIMEDELTA))
  = Ok false →
  let claims := derived_provides (email (current_user e)) cached in
  ∃ idt' w',
    on_identity_changed e idt w = (Ok idt', w')
    ∧ provides idt' = provides idt ∪ claims
    ∧ cern_provides (session w') = Some claims
    ∧ cern_resource (session w') = cern_resource (session w)
    ∧ log w' = log w ∧ accounts w' = accounts w ∧ committed w' = committed w
    ∧ heap w' = heap w ∧ links w' = links w.
Proof.
  intros Hanon Hkey Hacc Hgroups Hl Hfresh claims.
  unfold on_identity_changed. rewrite Hanon, Hkey.
  erewrite mbind_M_ok by reflexivity.
  assert (Hlook : RemoteAccount_get (user_id (current_user e)) client_id w
                  = (Ok (Some extra_data), w)).
  { unfold RemoteAccount_get, gets. by rewrite Hacc. }
  erewrite mbind_M_ok by exact Hlook.
  cbv beta iota. rewrite Hgroups.
  erewrite mbind_M_ok by reflexivity.
  rewrite Hfresh.
  erewrite mbind_M_ok by reflexivity.
  cbv beta iota.
  erewrite mbind_M_ok by reflexivity.
  unfold iter_names, deref. erewrite mbind_M_ok by reflexivity.
  erewrite mbind_M_ok by reflexivity.
  rewrite Hl. simpl.
  eexists _, _. split; [reflexivity|]. simpl. repeat split; done.
Qed.

(** X8: what the identity-loaded hook adds is what the last extension
    stored: after [extend_identity], loading the session into any identity
    gives it the derived claims, leaves the world as it is, and a disconnect
    takes the derived claims away again. *)
Theorem on_identity_loaded_round_trip em idt groups other w :
  let '(_, session1) := extend_identity em idt groups (session w) in
  let w1 := set_session (λ _, session1) w in
  ∃ loaded,
    on_identity_loaded other w1 = (Ok loaded, w1)
    ∧ provides loaded = provides other ∪ derived_provides em groups
    ∧ ∃ idt2 session2,
        disconnect_identity loaded (session w1) = (Ok idt2, session2)
        ∧ provides idt2 = provides other ∖ derived_provides em groups
        ∧ cern_provides session2 = None.
Proof.
  simpl. eexists. split; [reflexivity|]. simpl. split; [done|].
  eexists _, _. split; [reflexivity|]. simpl. split; [set_solver|done].
Qed.

(** Without a role cache in the session the loaded identity is the given
    one. *)
Lemma on_identity_loaded_no_cache idt w :
  cern_provides (session w) = None →
  ∃ loaded, on_identity_loaded idt w = (Ok loaded, w)
            ∧ provides loaded = provides idt.
Proof.
  intros H. unfold on_identity_loaded, mbind_M, gets, ret. rewrite H.
  eexists. split; [reflexivity|]. simpl. set_solver.
Qed.

(** ** Disconnecting without a role cache *)

Lemma disconnect_identity_no_cache idt session :
  cern_provides session = None →
  disconnect_identity idt session = (Raise TypeError, session).
Proof.
  intros H. unfold disconnect_identity. rewrite H. by destruct session; simplify_eq/=.
Qed.

(** X9: without a role cache in the session [disconnect_identity] raises
    [TypeError], and so does the disconnect handler for a user with a linked
    account, after it has removed the external-id link and deleted the
    account: the session and the identity are as before, the account is
    gone. *)
Theorem disconnect_handler_without_cache e remote w extra_data :
  is_authenticated (current_user e) = true →
  accounts w !! (user_id (current_user e), consumer_key remote) = Some extra_data →
  cern_provides (session w) = None →
  disconnect_identity (g_identity w) (session w) = (Raise TypeError, session w)
  ∧ ∃ w', disconnect_handler e remote w = (Raise TypeError, w')
          ∧ accounts w' = delete (user_id (current_user e), consumer_key remote)
                                 (accounts w)
          ∧ links w' ⊆ links w
          ∧ (∀ id, extra_data !! "external_id" = Some (JStr id) → id ≠ "" →
                   (id, "cern") ∉ links w')
          ∧ session w' = session w ∧ g_identity w' = g_identity w.
Proof.
  intros Hauth Hacc Hcache.
  split; [by apply disconnect_identity_no_cache|].
  unfold disconnect_handler. rewrite Hauth. simpl.
  unfold mbind_M at 1. unfold RemoteAccount_get, gets at 1. rewrite Hacc.
  unfold mbind_M at 1. unfold lift at 1.
  destruct (extra_data !! "external_id") as [[| id | l]|] eqn:Hid; simpl.
  - unfold mbind_M, ret, modify, gets, RemoteAccount_delete, lift; simpl.
    rewrite (disconnect_identity_no_cache _ _ Hcache). simpl.
    eexists. split; [reflexivity|]. simpl. repeat split; done.
  - unfold mbind_M, ret, modify, gets, RemoteAccount_delete, oauth_unlink_external_id,
      lift; simpl.
    destruct (String.eqb_spec id "") as [->|Hne]; simpl;
      rewrite (disconnect_identity_no_cache _ _ Hcache); simpl;
      (eexists; split; [reflexivity|]); simpl.
    + split; [done|]. split; [done|]. split; [|done].
      intros id' [= <-] Hne'. done.
    + split; [done|]. split; [set_solver|]. split; [|done].
      intros id' [= <-] _. set_solver.
  - unfold mbind_M, ret, modify, gets, RemoteAccount_delete, deref, lift; simpl.
    destruct (negb _); simpl; rewrite (disconnect_identity_no_cache _ _ Hcache); simpl;
      (eexists; split; [reflexivity|]); simpl; repeat split; done.
  - unfold mbind_M, ret, modify, gets, RemoteAccount_delete, lift; simpl.
    rewrite (disconnect_identity_no_cache _ _ Hcache). simpl.
    eexists. split; [reflexivity|]. simpl. repeat split; done.
Qed.

(** ** Account information *)

Lemma lower_char_idempotent c : Text.lower_char (Text.lower_char c) = Text.lower_char c.
Proof. destruct c as [[] [] [] [] [] [] [] []]; reflexivity. Qed.

Lemma lower_idempotent s : Text.lower (Text.lower s) = Text.lower s.
Proof.
  induction s as [|c s IH]; [done|]. simpl. by rewrite lower_char_idempotent, IH.
Qed.

Lemma first_value_ok resource key v :
  first_value resource key = Ok v ↔
  match resource !! key with
  | Some l => head l = Some v
  | None => v = None
  end.
Proof.
  unfold first_value. destruct (resource !! key) as [[|x l]|]; simpl;
    split; intros H; simplify_eq/=; done.
Qed.

(** X10: whenever [account_info] returns on the resource it fetched, the
    resource is a dictionary whose first email address is a string, the
    email of the result is that string in lower case, the external id is
    the first [uidNumber] when that key is present and the first [PersonID]
    otherwise, the profile is what the serializer extracts, the method is
    [cern] and the account is active. *)
Theorem account_info_of_returns c r info :
  account_info_of c r = Ok info →
  ∃ d em rest,
    r = ResDict d
    ∧ d !! "EmailAddress" = Some (Some em :: rest)
    ∧ au_email (ai_user info) = Text.lower em
    ∧ Text.lower (au_email (ai_user info)) = au_email (ai_user info)
    ∧ match d !! "uidNumber" with
      | Some l => head l = Some (ai_external_id info)
      | None =>
          match d !! "PersonID" with
          | Some l => head l = Some (ai_external_id info)
          | None => ai_external_id info = None
          end
      end
    ∧ config_get (cfg_extra_data_serializer c) fetch_extra_data d
      = Ok (au_profile (ai_user info))
    ∧ ai_external_method info = "cern" ∧ ai_active info = true.
Proof.
  destruct r as [d|body]; [|discriminate]. unfold account_info_of. intros H.
  apply bind_ok in H as (email & Hemail & H).
  apply bind_ok in H as (ext & Hext & H).
  apply bind_ok in H as (extra & Hextra & H).
  destruct email as [em|]; [|discriminate]. cbn [bind] in H. injection H as <-.
  apply first_value_ok in Hemail.
  destruct (d !! "EmailAddress") as [[|x rest]|] eqn:Hd; simplify_eq/=.
  exists d, em, rest. split; [done|]. split; [done|]. split; [done|].
  split; [apply lower_idempotent|]. split; [|done].
  unfold external_id_of in Hext.
  destruct (d !! "uidNumber") as [[|u l]|]; simplify_eq/=; [done|].
  destruct (d !! "PersonID") as [[|p l]|]; simplify_eq/=; done.
Qed.

(** The response object of [jsonify] makes [account_info] raise. *)
Lemma account_info_of_jsonify c body :
  account_info_of c (ResJsonify body) = Raise AttributeError.
Proof. reflexivity. Qed.

Lemma group_names_some l : group_names (Some <$> l) = Ok l.
Proof.
  induction l as [|x l IH]; [done|]. rewrite fmap_cons. cbn [group_names].
  by rewrite IH.
Qed.

(** X11: on every record that the directory lookup returns, with the
    default serializer, [account_info] returns: the email is the user's
    email in lower case, the external id is the [uidNumber] of the record
    (its [PersonID] is not consulted), and the profile has the same value
    as department and as identity class. *)
Theorem account_info_of_directory_record c reply u d :
  cfg_extra_data_serializer c = None →
  get_user_resources_ldap reply u = Ok (ResDict d) →
  ∃ info uid dept,
    account_info_of c (ResDict d) = Ok info
    ∧ au_email (ai_user info) = Text.lower (email u)
    ∧ d !! "uidNumber" = Some [uid] ∧ ai_external_id info = uid
    ∧ d !! "Department" = Some [dept]
    ∧ au_profile (ai_user info) !! "department" = Some dept
    ∧ au_profile (ai_user info) !! "identity_class" = Some dept.
Proof.
  intros Hser H. apply get_user_resources_ldap_record in H
    as (groups & uid & cn & dn & building & dept & pid & ->).
  unfold account_info_of. rewrite Hser.
  eexists _, uid, dept. split; [reflexivity|]. simpl. repeat split; reflexivity.
Qed.

(** ** The user-info schema *)

(** X12: on every record that the directory lookup returns the four
    methods of the schema return: the email is the queried one as it is
    written, the groups are the filtered groups of the record, first name,
    last name and display name coincide, and there is no home institute. *)
Theorem schema_on_directory_record c reply u d :
  get_user_resources_ldap reply u = Ok (ResDict d) →
  get_email d = Ok (Some (email u))
  ∧ (∃ uid, d !! "uidNumber" = Some [uid] ∧ get_external_id d = Ok uid)
  ∧ (∃ groups, d !! "Group" = Some (Some <$> groups)
               ∧ get_groups c d = Ok (fetch_groups c groups))
  ∧ ∃ profile, get_profile d = Ok profile
               ∧ profile !! "home_institute" = Some None
               ∧ profile !! "first_name" = profile !! "display_name"
               ∧ profile !! "last_name" = profile !! "display_name".
Proof.
  intros H. apply get_user_resources_ldap_record in H
    as (groups & uid & cn & dn & building & dept & pid & ->).
  split; [reflexivity|]. split; [by exists uid|]. split.
  - exists groups. split; [reflexivity|]. unfold get_groups.
    change (default [] _) with (Some <$> groups). by rewrite group_names_some.
  - eexists. split; [reflexivity|]. repeat split; reflexivity.
Qed.

(** X13: the schema and [account_info] read the same resource: whenever
    [account_info] returns, the schema reports the same external id, and
    its email is the one [account_info] lower-cases. *)
Theorem schema_agrees_with_account_info c d info :
  account_info_of c (ResDict d) = Ok info →
  get_external_id d = Ok (ai_external_id info)
  ∧ ∃ em, get_email d = Ok (Some em) ∧ au_email (ai_user info) = Text.lower em.
Proof.
  unfold account_info_of, get_external_id, get_email. intros H.
  apply bind_ok in H as (email & Hemail & H).
  apply bind_ok in H as (ext & Hext & H).
  apply bind_ok in H as (extra & Hextra & H).
  destruct email as [em|]; [|discriminate]. cbn [bind] in H. injection H as <-.
  split; [exact Hext|]. by exists em.
Qed.

(** ** Records of the REST resource *)

(** A field of a normalised response holds at least one value, and its
    values are strings. *)
Lemma get_dict_from_response_nonempty response key l :
  get_dict_from_response response !! key = Some l →
  ∃ v rest, l = Some v :: rest.
Proof.
  rewrite get_dict_from_response_fold.
  destruct (match resp_code response with Some _ => _ | None => _ end).
  - by rewrite lookup_empty.
  - rewrite group_claims_by_lookup. unfold values_of.
    destruct (filter _ (data response)) as [|i claims]; [done|].
    rewrite fmap_cons. intros [= <-]. by eexists _, _.
Qed.

Lemma first_value_rest response key :
  ∃ v, first_value (get_dict_from_response response) key = Ok v.
Proof.
  unfold first_value.
  destruct (get_dict_from_response response !! key) as [l|] eqn:H; [|by eexists].
  apply get_dict_from_response_nonempty in H as (v & rest & ->). by eexists.
Qed.

Lemma external_id_of_rest response :
  ∃ v, external_id_of (get_dict_from_response response) = Ok v.
Proof.
  unfold external_id_of.
  destruct (get_dict_from_response response !! "uidNumber") as [l|] eqn:H.
  - apply get_dict_from_response_nonempty in H as (v & rest & ->). by eexists.
  - destruct (get_dict_from_response response !! "PersonID") as [l|] eqn:H';
      [|by eexists].
    apply get_dict_from_response_nonempty in H' as (v & rest & ->). by eexists.
Qed.

Lemma fetch_extra_data_rest response :
  ∃ extra, fetch_extra_data (get_dict_from_response response) = Ok extra.
Proof.
  unfold fetch_extra_data.
  destruct (first_value_rest response "PersonID") as [p ->].
  destruct (first_value_rest response "IdentityClass") as [i ->].
  destruct (first_value_rest response "Department") as [d ->].
  by eexists.
Qed.

(** X14: on a normalised REST response, with the default serializer,
    [account_info] returns exactly when the response carries an email
    address, with that address in lower case; without one it raises
    [AttributeError]; it never raises [IndexError]. *)
Theorem account_info_of_rest_record c response :
  cfg_extra_data_serializer c = None →
  match get_dict_from_response response !! "EmailAddress" with
  | Some (Some em :: _) =>
      ∃ info, account_info_of c (ResDict (get_dict_from_response response)) = Ok info
              ∧ au_email (ai_user info) = Text.lower em
  | _ =>
      get_dict_from_response response !! "EmailAddress" = None
      ∧ account_info_of c (ResDict (get_dict_from_response response))
        = Raise AttributeError
  end.
Proof.
  intros Hser. unfold account_info_of. rewrite Hser. cbn [config_get].
  destruct (external_id_of_rest response) as [ext Hext].
  destruct (fetch_extra_data_rest response) as [extra Hextra].
  unfold first_value.
  destruct (get_dict_from_response response !! "EmailAddress") as [l|] eqn:H.
  - apply get_dict_from_response_nonempty in H as (v & rest & ->).
    cbn [default lookup list_lookup bind]. rewrite Hext, Hextra.
    eexists. split; reflexivity.
  - cbn [default lookup list_lookup bind]. by rewrite Hext, Hextra.
Qed.

(** X15: a resource without groups stops the refresh: on a dictionary
    without the key [Group], as a normalised REST response without group
    claim is, [account_groups_and_extra_data] raises [KeyError], and on the
    response object of [jsonify] it raises [TypeError]; in both cases the
    world is as before.  The schema method reads the same dictionary as an
    empty group list. *)
Theorem account_groups_and_extra_data_without_groups e account refresh_timedelta w :
  (∀ d, d !! "Group" = None →
        account_groups_and_extra_data e account (ResDict d) refresh_timedelta w
        = (Raise KeyError, w)
        ∧ get_groups (cfg e) d = Ok [])
  ∧ (∀ response,
       forallb (λ i, negb (String.eqb
                             (Text.remove_all REMOTE_APP_RESOURCE_SCHEMA (Type_ i))
                             "Group"))
               (data response) = true →
       account_groups_and_extra_data e account
         (ResDict (get_dict_from_response response)) refresh_timedelta w
       = (Raise KeyError, w))
  ∧ (∀ body,
       account_groups_and_extra_data e account (ResJsonify body) refresh_timedelta w
       = (Raise TypeError, w)).
Proof.
  assert (Hmissing : ∀ d, d !! "Group" = None →
            account_groups_and_extra_data e account (ResDict d) refresh_timedelta w
            = (Raise KeyError, w)).
  { intros d Hd. unfold account_groups_and_extra_data, mbind_M, lift. simpl.
    by rewrite Hd. }
  split; [|split].
  - intros d Hd. split; [by apply Hmissing|]. unfold get_groups. by rewrite Hd.
  - intros response Hnone. apply Hmissing.
    rewrite get_dict_from_response_fold.
    destruct (match resp_code response with Some _ => _ | None => _ end);
      [apply lookup_empty|].
    rewrite group_claims_by_lookup. unfold values_of.
    rewrite forallb_forall in Hnone.
    destruct (filter _ (data response)) as [|i claims] eqn:Hf; [done|].
    exfalso.
    assert (Hi : i ∈ filter (λ i, Text.remove_all REMOTE_APP_RESOURCE_SCHEMA (Type_ i)
                                  = "Group") (data response))
      by (rewrite Hf; left).
    apply list_elem_of_filter in Hi as [Heq Hi].
    apply list_elem_of_In, Hnone in Hi. rewrite Heq in Hi. discriminate.
  - intros body. reflexivity.
Qed.

(** ** Sign-up: [account_info] followed by [account_setup] *)

Lemma fetch_extra_data_rest_keys response :
  ∃ p i d,
    fetch_extra_data (get_dict_from_response response)
    = Ok (list_to_map [ ("person_id", p); ("identity_class", i); ("department", d) ]).
Proof.
  unfold fetch_extra_data.
  destruct (first_value_rest response "PersonID") as [p ->].
  destruct (first_value_rest response "IdentityClass") as [i ->].
  destruct (first_value_rest response "Department") as [d ->].
  by eexists _, _, _.
Qed.

(** The run of a sign-up on a REST resource that answers 200 with an email
    address and groups. *)
Lemma sign_up_run e r response w account names em rest :
  truthy_dict (cern_resource (session w)) = None →
  get_reply r = Ok response →
  status response = 200%Z →
  cfg_extra_data_serializer (cfg e) = None →
  is_anonymous (g_identity w) = false →
  get_dict_from_response response !! "EmailAddress" = Some (Some em :: rest) →
  get_dict_from_response response !! "Group" = Some (Some <$> names) →
  let fresh := fetch_groups (cfg e) names in
  let claims := derived_provides (email (current_user e)) fresh in
  ∃ info external_id w1 w2 row l snapshot,
    account_info e (Some r) w = (Ok info, w1)
    ∧ au_email (ai_user info) = Text.lower em
    ∧ ai_external_id info = external_id
    ∧ external_id_of (get_dict_from_response response) = Ok external_id
    ∧ cern_resource (session w1) = Some (get_dict_from_response response)
    ∧ account_setup e (Some r) account w1 = (Ok Returned, w2)
    ∧ log w2 = log w ++ [RestGet REMOTE_APP_RESOURCE_API_URL]
    ∧ cern_resource (session w2) = None
    ∧ accounts w2 = <[account := row]> (accounts w)
    ∧ row !! "external_id" = Some (scalar external_id)
    ∧ row !! "updated" = Some (JStr (isoformat (utcnow_refresh e)))
    ∧ row !! "groups" = Some (JList l)
    ∧ heap w2 !! l = Some fresh
    ∧ committed w2 !! account = Some snapshot
    ∧ snapshot !! "groups" = Some (SList fresh)
    ∧ provides (g_identity w2) = provides (g_identity w) ∪ claims
    ∧ cern_provides (session w2) = Some claims
    ∧ links w2 = match external_id with
                 | Some id => {[ (id, "cern") ]} ∪ links w
                 | None => links w
                 end.
Proof.
  intros Hslot Hreply Hstatus Hser Hanon Hemail Hgroups fresh claims.
  set (d := get_dict_from_response response) in *.
  destruct (external_id_of_rest response) as [ext Hext]. fold d in Hext.
  destruct (fetch_extra_data_rest_keys response) as (p & ic & dep & Hextra).
  fold d in Hextra.
  assert (Hne : bool_decide (d = ∅) = false).
  { apply bool_decide_eq_false. intros Hd. rewrite Hd, lookup_empty in Hemail.
    discriminate. }
  set (w0 := add_event (RestGet REMOTE_APP_RESOURCE_API_URL) (clear_cern_resource w)).
  assert (Hget1 : get_resource e (Some r) w = (Ok (ResDict d), store_cern_resource d w0)).
  { unfold get_resource, mbind_M, session_pop_cern_resource. rewrite Hslot.
    unfold remote_get, mbind_M, modify, lift. rewrite Hreply, Hstatus. reflexivity. }
  assert (Hget2 : get_resource e (Some r) (store_cern_resource d w0) = (Ok (ResDict d), w0)).
  { unfold get_resource, mbind_M, session_pop_cern_resource.
    unfold store_cern_resource at 1. simpl. by rewrite Hne. }
  assert (Hinfo : ∃ info, account_info_of (cfg e) (ResDict d) = Ok info
                          ∧ au_email (ai_user info) = Text.lower em
                          ∧ ai_external_id info = ext).
  { unfold account_info_of, first_value. rewrite Hemail, Hser. cbn [config_get].
    cbn [default lookup list_lookup bind]. rewrite Hext, Hextra. by eexists. }
  destruct Hinfo as (info & Hinfo & Hmail & Hid).
  set (row0 := {[ "external_id" := scalar ext ]} : gmap string jval).
  set (wa := set_accounts (<[account := row0]>) w0).
  assert (Hrun := account_groups_and_extra_data_run e account d (Some <$> names) names
                    (list_to_map [ ("person_id", p); ("identity_class", ic);
                                   ("department", dep) ])
                    row0 wa Hgroups (group_names_some names)).
  rewrite Hser in Hrun. specialize (Hrun Hextra eq_refl eq_refl).
  assert (Hrow0 : accounts wa !! account = Some row0) by apply lookup_insert_eq.
  specialize (Hrun Hrow0 None). cbv zeta in Hrun. fold fresh in Hrun.
  assert (Hinfo_run : account_info e (Some r) w = (Ok info, store_cern_resource d w0)).
  { unfold account_info. erewrite mbind_M_ok by exact Hget1. unfold lift.
    by rewrite Hinfo. }
  assert (Hsetup : ∃ w2, account_setup e (Some r) account (store_cern_resource d w0)
                         = (Ok Returned, w2)
      ∧ w2 = (match ext with
              | Some id => set_links (λ l, {[ (id, "cern") ]} ∪ l)
              | None => λ w, w
              end)
             (set_session (λ _, {| cern_provides := Some claims;
                                   cern_resource := None |})
               (set_g_identity
                  {| is_anonymous := is_anonymous (g_identity w);
                     provides := provides (g_identity w) ∪ claims |}
                  (snd (account_groups_and_extra_data e account (ResDict d) None wa))))).
  { eexists. split; [|reflexivity].
    unfold account_setup. erewrite mbind_M_ok by exact Hget2.
    cbv beta iota. rewrite Hext. erewrite mbind_M_ok by reflexivity.
    erewrite mbind_M_ok by reflexivity. fold row0. fold wa.
    rewrite Hrun. cbn [snd].
    erewrite mbind_M_ok by exact Hrun.
    erewrite mbind_M_ok by reflexivity. cbn [g_identity wa set_accounts w0 add_event
      clear_cern_resource set_session]. rewrite Hanon.
    unfold deref. erewrite mbind_M_ok by reflexivity.
    erewrite mbind_M_ok by reflexivity.
    cbn [extend_identity heap session].
    rewrite lookup_app_r by lia. rewrite Nat.sub_diag. cbn [lookup list_lookup default].
    erewrite mbind_M_ok by reflexivity. erewrite mbind_M_ok by reflexivity.
    unfold oauth_link_external_id.
    destruct ext as [id|]; (erewrite mbind_M_ok by reflexivity);
      rewrite ?Hanon; reflexivity. }
  destruct Hsetup as (w2 & Hsetup & Hw2). rewrite Hrun in Hw2. cbn [snd] in Hw2.
  assert (Hnew : (heap w ++ [fresh]) !! length (heap w) = Some fresh).
  { rewrite lookup_app_r by lia. by rewrite Nat.sub_diag. }
  set (row1 := (scalar <$> (list_to_map [ ("person_id", p); ("identity_class", ic);
                                          ("department", dep) ]
                             : gmap string (option string)))
               ∪ <["updated" := JStr (isoformat (utcnow_refresh e))]>
                   (<["groups" := JList (length (heap w))]> row0)).
  exists info, ext, (store_cern_resource d w0), w2, row1, (length (heap w)),
    (materialize (heap w ++ [fresh]) <$> row1).
  split; [done|]. split; [done|]. split; [done|]. split; [done|]. split; [done|].
  split; [done|].
  subst w2.
  assert (Hlinks : links wa = links w) by reflexivity.
  assert (Hlog : log wa = log w ++ [RestGet REMOTE_APP_RESOURCE_API_URL]) by reflexivity.
  assert (Hgr : (materialize (heap w ++ [fresh]) <$> row1) !! "groups"
                = Some (SList fresh)).
  { rewrite lookup_fmap.
    replace (row1 !! "groups") with (Some (JList (length (heap w))))
      by (subst row1 row0; reflexivity).
    cbn [fmap option_fmap option_map materialize]. by rewrite Hnew. }
  assert (Hrow : row1 !! "external_id" = Some (scalar ext)
                 ∧ row1 !! "updated" = Some (JStr (isoformat (utcnow_refresh e)))
                 ∧ row1 !! "groups" = Some (JList (length (heap w)))).
  { subst row1 row0. repeat split; reflexivity. }
  destruct Hrow as (Hr1 & Hr2 & Hr3).
  assert (Hacc : <[account := row1]> (accounts wa) = <[account := row1]> (accounts w)).
  { change (accounts wa) with (<[account := row0]> (accounts w)).
    apply insert_insert_eq. }
  assert (Hcom : ((λ ed : gmap string jval, materialize (heap w ++ [fresh]) <$> ed)
                  <$> <[account := row1]> (accounts wa)) !! account
                 = Some (materialize (heap w ++ [fresh]) <$> row1)).
  { by rewrite lookup_fmap, lookup_insert_eq. }
  destruct ext as [id|];
    cbn [log session cern_resource cern_provides accounts committed g_identity
         provides links heap set_links set_session set_g_identity].
  all: change (heap wa) with (heap w); fold row1.
  all: rewrite Hlinks, Hlog; repeat split; done.
Qed.

(** X16: a sign-up on a REST resource that answers 200 with an email
    address and groups queries the resource once: [account_info] stores the
    normalised response in the session, [account_setup] consumes it without
    another call and leaves the slot empty.  Afterwards the row of the
    account holds the external id, the filtered groups and the time of the
    refresh, the commit has written the filtered groups, the identity and
    the role cache hold the claims derived from the filtered groups, and the
    external id is linked. *)
Theorem account_info_then_account_setup
    e r response w account names em rest :
  truthy_dict (cern_resource (session w)) = None →
  get_reply r = Ok response →
  status response = 200%Z →
  cfg_extra_data_serializer (cfg e) = None →
  is_anonymous (g_identity w) = false →
  get_dict_from_response response !! "EmailAddress" = Some (Some em :: rest) →
  get_dict_from_response response !! "Group" = Some (Some <$> names) →
  let fresh := fetch_groups (cfg e) names in
  let claims := derived_provides (email (current_user e)) fresh in
  ∃ info external_id w1 w2,
    account_info e (Some r) w = (Ok info, w1)
    ∧ au_email (ai_user info) = Text.lower em
    ∧ ai_external_id info = external_id
    ∧ cern_resource (session w1) = Some (get_dict_from_response response)
    ∧ account_setup e (Some r) account w1 = (Ok Returned, w2)
    ∧ log w2 = log w ++ [RestGet REMOTE_APP_RESOURCE_API_URL]
    ∧ cern_resource (session w2) = None
    ∧ (∃ row l, accounts w2 !! account = Some row
                ∧ row !! "external_id" = Some (scalar external_id)
                ∧ row !! "updated" = Some (JStr (isoformat (utcnow_refresh e)))
                ∧ row !! "groups" = Some (JList l)
                ∧ heap w2 !! l = Some fresh)
    ∧ (∃ snapshot, committed w2 !! account = Some snapshot
                   ∧ snapshot !! "groups" = Some (SList fresh))
    ∧ provides (g_identity w2) = provides (g_identity w) ∪ claims
    ∧ cern_provides (session w2) = Some claims
    ∧ links w2 = match external_id with
                 | Some id => {[ (id, "cern") ]} ∪ links w
                 | None => links w
                 end.
Proof.
  intros Hslot Hreply Hstatus Hser Hanon Hemail Hgroups fresh claims.
  destruct (sign_up_run e r response w account names em rest
              Hslot Hreply Hstatus Hser Hanon Hemail Hgroups)
    as (info & external_id & w1 & w2 & row & l & snapshot & Hinfo & Hmail & Hid & _
        & Hslot1 & Hsetup & Hlog & Hslot2 & Hacc & Hext & Hupd & Hgrp & Hheap
        & Hcom & Hsnap & Hprov & Hcache & Hlinks).
  exists info, external_id, w1, w2.
  repeat (split; [done|]).
  split; [|split; [by exists snapshot|done]].
  exists row, l. rewrite Hacc, lookup_insert_eq. done.
Qed.

(** X17: the assertion of [account_setup] comes after the account has been
    written.  With an anonymous identity and a record in the session slot,
    [account_setup] fails its assertion, but the row of the account has
    been replaced, the filtered groups have been committed and the slot has
    been consumed; the identity, the role cache and the links are
    untouched. *)
Theorem account_setup_asserts_after_commit
    e remote account w d raw names external_id extra :
  cern_resource (session w) = Some d →
  d ≠ ∅ →
  external_id_of d = Ok external_id →
  d !! "Group" = Some raw →
  group_names raw = Ok names →
  config_get (cfg_extra_data_serializer (cfg e)) fetch_extra_data d = Ok extra →
  extra !! "groups" = None →
  extra !! "updated" = None →
  is_anonymous (g_identity w) = true →
  ∃ w',
    account_setup e remote account w = (Ok AssertionFailed, w')
    ∧ (∃ snapshot, committed w' !! account = Some snapshot
                   ∧ snapshot !! "groups" = Some (SList (fetch_groups (cfg e) names)))
    ∧ cern_resource (session w') = None
    ∧ g_identity w' = g_identity w
    ∧ cern_provides (session w') = cern_provides (session w)
    ∧ links w' = links w
    ∧ log w' = log w.
Proof.
  intros Hslot Hne Hext HG Hn Hs Hg Hu Hanon.
  set (w0 := clear_cern_resource w).
  assert (Hget : get_resource e remote w = (Ok (ResDict d), w0)).
  { unfold get_resource, mbind_M, session_pop_cern_resource. rewrite Hslot.
    unfold truthy_dict. by rewrite bool_decide_eq_false_2. }
  set (row0 := {[ "external_id" := scalar external_id ]} : gmap string jval).
  set (wa := set_accounts (<[account := row0]>) w0).
  assert (Hrow0 : accounts wa !! account = Some row0) by apply lookup_insert_eq.
  pose proof (account_groups_and_extra_data_run e account d raw names extra row0 wa
                HG Hn Hs Hg Hu Hrow0 None) as Hrun.
  cbv zeta in Hrun.
  eexists. split.
  { unfold account_setup. erewrite mbind_M_ok by exact Hget.
    cbv beta iota. rewrite Hext. erewrite mbind_M_ok by reflexivity.
    erewrite mbind_M_ok by reflexivity. fold row0. fold wa.
    erewrite mbind_M_ok by exact Hrun.
    erewrite mbind_M_ok by reflexivity.
    cbn [g_identity wa set_accounts w0 clear_cern_resource set_session].
    rewrite Hanon. reflexivity. }
  cbn [committed session cern_resource cern_provides g_identity links log].
  split; [|done].
  eexists. split; [rewrite lookup_fmap, lookup_insert_eq; reflexivity|].
  assert (Hnew : (heap w ++ [fetch_groups (cfg e) names]) !! length (heap w)
                 = Some (fetch_groups (cfg e) names)).
  { rewrite lookup_app_r by lia. by rewrite Nat.sub_diag. }
  rewrite lookup_fmap, lookup_union_r by (rewrite lookup_fmap, Hg; done).
  rewrite lookup_insert_ne, lookup_insert_eq by done.
  cbn [fmap option_fmap option_map materialize].
  change (heap wa) with (heap w). by rewrite Hnew.
Qed.

Section Instants.

Local Open Scope Z_scope.

Lemma days_in_month_le_31 y m : 1 ≤ m ≤ 12 → days_in_month y m ≤ 31.
Proof.
  intros Hm. unfold days_in_month.
  destruct (months_cases m Hm) as [->|[->|[->|[->|[->|[->|[->|[->|[->|[->|[->| ->]]]]]]]]]]];
    destruct (is_leap y); simpl; lia.
Qed.

Lemma valid_datetime_printable dt : valid_datetime dt → printable dt.
Proof.
  intros (Hy & Hm & Hd & Hh & Hmi & Hs & Hu).
  pose proof (days_in_month_le_31 (year dt) _ Hm). unfold printable. lia.
Qed.

(** The fields of valid datetimes compare as their instants do. *)
Lemma fields_compare_instants d1 d2 :
  valid_datetime d1 → valid_datetime d2 →
  fields_compare d1 d2 = (to_microseconds d1 ?= to_microseconds d2).
Proof.
  intros (Hy1 & Hm1 & Hd1 & Hh1 & Hmi1 & Hs1 & Hu1)
         (Hy2 & Hm2 & Hd2 & Hh2 & Hmi2 & Hs2 & Hu2).
  unfold fields_compare.
  rewrite <- !lex_assoc. rewrite (lex_assoc (year d1 ?= year d2)).
  fold (ymd_compare (year d1) (month d1) (day d1) (year d2) (month d2) (day d2)).
  rewrite ymd2ord_compare by done. rewrite !lex_assoc.
  rewrite (lex_compare_digits (second d1) _ (second d2) _ 1000000) by lia.
  rewrite (lex_compare_digits (minute d1) _ (minute d2) _ (60 * 1000000)) by lia.
  rewrite (lex_compare_digits (hour d1) _ (hour d2) _ (60 * 60 * 1000000)) by lia.
  rewrite (lex_compare_digits _ _ _ _ (24 * 60 * 60 * 1000000)) by lia.
  unfold to_microseconds, toordinal, US_PER_SECOND. f_equal; lia.
Qed.

(** [add] returns a valid datetime, at the instant of the sum. *)
Lemma add_instant now td t :
  add now td = Ok t →
  valid_datetime t ∧ to_microseconds t = to_microseconds now + td.
Proof.
  intros Ha.
  destruct (add_fields _ _ _ Ha) as (Hd & Hy & Hr & Hh & Hm & Hs & Hu).
  pose proof (ord2ymd_spec _ Hd) as S. rewrite Hy in S.
  destruct S as (Sy & Sm & Sd & So).
  split; [unfold valid_datetime; lia|].
  set (T := to_microseconds now + td) in *.
  assert (E : T = T / US_PER_DAY * US_PER_DAY + T mod US_PER_DAY).
  { rewrite Z.mul_comm. apply Z.div_mod. done. }
  unfold to_microseconds at 1. unfold toordinal. rewrite So.
  unfold US_PER_DAY, US_PER_SECOND in *. lia.
Qed.

(** X18: on timestamps the module wrote itself, the string comparison of
    [should_refresh_groups] decides by the instants.  For a stored
    timestamp that is the ISO string of a valid datetime [updated], the
    test answers that a refresh is due exactly when [updated] is not later
    than [now + window] (than [now], for a valid [now], without a
    window). *)
Theorem should_refresh_groups_by_instant now updated :
  valid_datetime updated →
  (∀ window t,
     add now window = Ok t →
     should_refresh_groups now (Some (isoformat updated)) (Some window)
     = Ok (to_microseconds updated <=? to_microseconds now + window))
  ∧ (valid_datetime now →
     should_refresh_groups now (Some (isoformat updated)) None
     = Ok (to_microseconds updated <=? to_microseconds now)).
Proof.
  intros Hv.
  assert (Hcmp : ∀ t, valid_datetime t →
            negb (Text.str_gt (isoformat updated) (isoformat t))
            = (to_microseconds updated <=? to_microseconds t)).
  { intros t Ht.
    pose proof (str_gt_spec (isoformat updated) (isoformat t)) as Hgt.
    rewrite isoformat_compare in Hgt by by apply valid_datetime_printable.
    rewrite fields_compare_instants in Hgt by done.
    destruct (Text.str_gt _ _); cbn [negb]; symmetry.
    - apply Z.leb_gt, Z.gt_lt, Hgt. done.
    - apply Z.leb_le. intros Hc. by apply Hgt in Hc. }
  split.
  - intros window t Ha. destruct (add_instant _ _ _ Ha) as (Ht & <-).
    rewrite (should_refresh_groups_of_threshold _ _ _ _ (threshold_add _ _ _ Ha)).
    by rewrite Hcmp.
  - intros Hn.
    rewrite (should_refresh_groups_of_threshold _ _ None (isoformat now) eq_refl).
    by rewrite Hcmp.
Qed.

End Instants.

(** ** Sign-up followed by disconnect *)

(** The run of the disconnect handler on a linked account with an external
    id and a role cache. *)
Lemma disconnect_handler_run e remote w extra_data id cache :
  is_authenticated (current_user e) = true →
  accounts w !! (user_id (current_user e), consumer_key remote) = Some extra_data →
  extra_data !! "external_id" = Some (JStr id) →
  id ≠ "" →
  cern_provides (session w) = Some cache →
  ∃ w', disconnect_handler e remote w
        = (Ok (Redirect "invenio_oauthclient_settings.index"), w')
        ∧ accounts w' = delete (user_id (current_user e), consumer_key remote)
                               (accounts w)
        ∧ links w' = links w ∖ {[ (id, "cern") ]}
        ∧ provides (g_identity w') = provides (g_identity w) ∖ cache
        ∧ cern_provides (session w') = None
        ∧ cern_resource (session w') = cern_resource (session w)
        ∧ committed w' = committed w ∧ log w' = log w.
Proof.
  intros Hauth Hacc Hid Hne Hcache.
  unfold disconnect_handler. rewrite Hauth. cbn [negb].
  unfold mbind_M at 1. unfold RemoteAccount_get, gets at 1. rewrite Hacc.
  unfold mbind_M at 1. unfold lift at 1. rewrite Hid. cbn [default].
  unfold mbind_M, ret, modify, gets, RemoteAccount_delete, oauth_unlink_external_id,
    lift; simpl.
  destruct (String.eqb_spec id "") as [->|_]; [done|]. simpl.
  rewrite (disconnect_identity_cached _ _ _ Hcache). simpl.
  eexists. split; [reflexivity|]. done.
Qed.

(** X19: a sign-up followed by a disconnect.  After a sign-up on a REST
    resource that gives a non-empty external id, the disconnect handler of
    the same user and remote application completes: the account is deleted,
    the link of the external id is gone, the role cache is cleared, and the
    identity holds its claims of before the sign-up without the derived
    ones. *)
Theorem sign_up_then_disconnect e r response w names em rest id :
  truthy_dict (cern_resource (session w)) = None →
  get_reply r = Ok response →
  status response = 200%Z →
  cfg_extra_data_serializer (cfg e) = None →
  is_anonymous (g_identity w) = false →
  get_dict_from_response response !! "EmailAddress" = Some (Some em :: rest) →
  get_dict_from_response response !! "Group" = Some (Some <$> names) →
  external_id_of (get_dict_from_response response) = Ok (Some id) →
  id ≠ "" →
  is_authenticated (current_user e) = true →
  let account := (user_id (current_user e), consumer_key r) in
  let claims := derived_provides (email (current_user e))
                  (fetch_groups (cfg e) names) in
  ∃ info w1 w2 w3,
    account_info e (Some r) w = (Ok info, w1)
    ∧ account_setup e (Some r) account w1 = (Ok Returned, w2)
    ∧ disconnect_handler e r w2
      = (Ok (Redirect "invenio_oauthclient_settings.index"), w3)
    ∧ accounts w3 = delete account (accounts w)
    ∧ links w3 = links w ∖ {[ (id, "cern") ]}
    ∧ provides (g_identity w3) = provides (g_identity w) ∖ claims
    ∧ cern_provides (session w3) = None
    ∧ cern_resource (session w3) = None.
Proof.
  intros Hslot Hreply Hstatus Hser Hanon Hemail Hgroups Hext Hne Hauth account claims.
  destruct (sign_up_run e r response w account names em rest
              Hslot Hreply Hstatus Hser Hanon Hemail Hgroups)
    as (info & external_id & w1 & w2 & row & l & snapshot & Hinfo & _ & _ & Hext'
        & _ & Hsetup & _ & Hslot2 & Hacc & Hrow & _ & _ & _
        & _ & _ & Hprov & Hcache & Hlinks).
  rewrite Hext in Hext'. injection Hext' as <-. cbn [scalar] in Hrow.
  destruct (disconnect_handler_run e r w2 row id claims Hauth) as
    (w3 & Hrun & Hacc3 & Hlinks3 & Hprov3 & Hcache3 & Hslot3 & _); try done.
  { unfold account in Hacc. rewrite Hacc. apply lookup_insert_eq. }
  exists info, w1, w2, w3.
  split; [done|]. split; [done|]. split; [done|].
  split; [rewrite Hacc3, Hacc; apply delete_insert_eq|].
  split; [rewrite Hlinks3, Hlinks; set_solver|].
  split; [rewrite Hprov3, Hprov; set_solver|].
  split; [done|]. by rewrite Hslot3.
Qed.

(** ** Instances on the sample data *)

(** C10 on the sample data: the disconnect handler on a world without and
    with a linked account. *)
Lemma disconnect_handler_requires_account_witness :
  is_authenticated (current_user env_rest_up) = true
  ∧ disconnect_handler env_rest_up (cern_remote (Ok ok_response)) empty_world
    = (Raise AttributeError, empty_world)
  ∧ ∃ w', disconnect_handler env_rest_up (cern_remote (Ok ok_response)) linked_world
          = (Ok (Redirect "invenio_oauthclient_settings.index"), w')
          ∧ accounts w' = delete (7%Z, "changeme") (accounts linked_world)
          ∧ links w' = links linked_world ∖ {[ ("1234", "cern") ]}.
Proof.
  split; [reflexivity|]. split.
  - apply (disconnect_handler_requires_account env_rest_up
             (cern_remote (Ok ok_response)) empty_world eq_refl).
    reflexivity.
  - destruct (disconnect_handler_requires_account env_rest_up
                (cern_remote (Ok ok_response)) linked_world eq_refl)
      as (_ & _ & Hrun).
    destruct (Hrun linked_extra_data (derived_provides "a@b.com" ["old-group"])
                ltac:(vm_compute; reflexivity) eq_refl)
      as (w' & Heq & Hacc & _ & _ & Hlinks).
    exists w'. split; [exact Heq|]. split; [exact Hacc|].
    apply Hlinks; [vm_compute; reflexivity | discriminate].
Defined.

(** C5 on the sample data: the identity-changed hook on the world with a
    stale linked account. *)
Lemma on_identity_changed_extends_and_replaces_witness :
  ∃ idt' w',
    on_identity_changed env_rest_up plain_identity linked_world = (Ok idt', w')
    ∧ provides idt'
      = provides plain_identity
        ∪ derived_provides "a@b.com" (["old-group"] ++ ["admins"; "users"])
    ∧ ∃ snapshot, committed w' !! (7%Z, "changeme") = Some snapshot
                  ∧ snapshot !! "groups" = Some (SList ["admins"; "users"]).
Proof.
  destruct (on_identity_changed_extends_and_replaces
              env_rest_up plain_identity linked_world "changeme" linked_extra_data
              0 ["old-group"] (get_dict_from_response ok_response)
              [Some "admins"; Some "users"] ["admins"; "users"]
              (list_to_map [ ("person_id", None); ("identity_class", None);
                             ("department", None) ])
              (store_cern_resource (get_dict_from_response ok_response)
                 (add_event (RestGet REMOTE_APP_RESOURCE_API_URL)
                    (clear_cern_resource linked_world)))
              eq_refl eq_refl
              ltac:(vm_compute; reflexivity) ltac:(vm_compute; reflexivity)
              eq_refl ltac:(vm_compute; reflexivity)
              ltac:(vm_compute; reflexivity) ltac:(vm_compute; reflexivity)
              eq_refl ltac:(vm_compute; reflexivity)
              ltac:(vm_compute; reflexivity) ltac:(vm_compute; reflexivity))
    as (idt' & w' & Hrun & Hprov & _ & Hsnap & _).
  exists idt', w'. split; [exact Hrun|]. split; [exact Hprov|]. exact Hsnap.
Defined.

(** C8 on the sample data: the staleness test around [sample_now]. *)
Lemma should_refresh_groups_lexical_witness :
  threshold sample_now (Some (timedelta_minutes (-5))) = Ok "2024-02-29T23:57:30"
  ∧ (should_refresh_groups sample_now (Some "2024-03-01T00:01:30")
       (Some (timedelta_minutes (-5))) = Ok false
     ↔ String.compare "2024-03-01T00:01:30" "2024-02-29T23:57:30" = Gt)
  ∧ should_refresh_groups sample_now (Some "2024-03-01T00:01:30")
      (Some (timedelta_minutes (-5))) = Ok false
  ∧ should_refresh_groups sample_now (Some "2024-02-29T23:52:30")
      (Some (timedelta_minutes (-5))) = Ok true.
Proof.
  destruct should_refresh_groups_lexical as (Hiff & Hfresh & Hstale).
  split; [reflexivity|]. split; [|split].
  - apply (Hiff sample_now "2024-03-01T00:01:30" (Some (timedelta_minutes (-5)))
             "2024-02-29T23:57:30" eq_refl).
  - exact (Hfresh sample_now
             {| year := 2024; month := 3; day := 1; hour := 0; minute := 1;
                second := 30; microsecond := 0 |}
             {| year := 2024; month := 2; day := 29; hour := 23; minute := 57;
                second := 30; microsecond := 0 |} eq_refl eq_refl).
  - exact (Hstale sample_now
             {| year := 2024; month := 2; day := 29; hour := 23; minute := 52;
                second := 30; microsecond := 0 |}
             {| year := 2024; month := 2; day := 29; hour := 23; minute := 57;
                second := 30; microsecond := 0 |} eq_refl eq_refl).
Defined.

(** C9 on the sample data: a claim type that starts with the schema URI. *)
Lemma get_dict_from_response_spec_witness :
  Text.contains REMOTE_APP_RESOURCE_SCHEMA "Group" = false
  ∧ Text.remove_all REMOTE_APP_RESOURCE_SCHEMA
      (REMOTE_APP_RESOURCE_SCHEMA +:+ "Group") = "Group".
Proof.
  split; [reflexivity|].
  destruct (get_dict_from_response_spec ok_response) as (_ & _ & Hname & _).
  apply Hname. reflexivity.
Defined.

(** ** Instances of the further properties on the sample data *)

(** X4 on the sample data: the record of the directory entry of the
    user. *)
Lemma get_user_resources_ldap_shape_witness :
  get_user_resources_ldap (search_result [alice_entry]) alice = Ok (ResDict alice_record)
  ∧ alice_record !! "EmailAddress" = Some [Some "a@b.com"]
  ∧ alice_record !! "Firstname" = alice_record !! "DisplayName".
Proof.
  assert (H : get_user_resources_ldap (search_result [alice_entry]) alice
              = Ok (ResDict alice_record)) by (vm_compute; reflexivity).
  split; [exact H|].
  destruct (get_user_resources_ldap_shape _ _ _ H) as (_ & Hmail & _ & Hfirst & _).
  split; [exact Hmail | exact Hfirst].
Defined.


(** X6 on the sample data: the hook on a world without linked account. *)
Lemma on_identity_changed_skips_witness :
  on_identity_changed env_rest_up plain_identity empty_world
  = (Ok plain_identity, empty_world).
Proof.
  destruct (on_identity_changed_skips env_rest_up plain_identity empty_world)
    as (_ & H).
  apply (H "changeme"); reflexivity.
Defined.

(** X7 on the sample data: the hook on a world with a fresh linked
    account. *)
Lemma on_identity_changed_fresh_witness :
  ∃ idt' w',
    on_identity_changed env_rest_up plain_identity fresh_world = (Ok idt', w')
    ∧ provides idt' = provides plain_identity ∪ derived_provides "a@b.com" ["old-group"]
    ∧ log w' = [].
Proof.
  destruct (on_identity_changed_fresh env_rest_up plain_identity fresh_world
              "changeme" fresh_extra_data 0 ["old-group"]
              eq_refl eq_refl ltac:(vm_compute; reflexivity)
              ltac:(vm_compute; reflexivity) eq_refl
              ltac:(vm_compute; reflexivity))
    as (idt' & w' & Hrun & Hprov & _ & _ & Hlog & _).
  exists idt', w'. split; [exact Hrun|]. split; [exact Hprov | exact Hlog].
Defined.

(** X9 on the sample data: the disconnect handler on a world with a linked
    account and no role cache. *)
Lemma disconnect_handler_without_cache_witness :
  ∃ w', disconnect_handler env_rest_up (cern_remote (Ok ok_response)) fresh_world
        = (Raise TypeError, w')
        ∧ accounts w' = delete (7%Z, "changeme") (accounts fresh_world)
        ∧ ("1234", "cern") ∉ links w'.
Proof.
  destruct (disconnect_handler_without_cache env_rest_up (cern_remote (Ok ok_response))
              fresh_world fresh_extra_data eq_refl
              ltac:(vm_compute; reflexivity) eq_refl)
    as (_ & w' & Hrun & Hacc & _ & Hlink & _).
  exists w'. split; [exact Hrun|]. split; [exact Hacc|].
  apply Hlink; [vm_compute; reflexivity | discriminate].
Defined.

(** X10 on the sample data: [account_info] on the record of the user. *)
Lemma account_info_of_returns_witness :
  account_info_of default_config (ResDict alice_record) = Ok alice_info
  ∧ ∃ em rest,
      alice_record !! "EmailAddress" = Some (Some em :: rest)
      ∧ au_email (ai_user alice_info) = Text.lower em.
Proof.
  assert (H : account_info_of default_config (ResDict alice_record) = Ok alice_info)
    by (vm_compute; reflexivity).
  split; [exact H|].
  destruct (account_info_of_returns _ _ _ H) as (d & em & rest & Hd & Hmail & Hlow & _).
  injection Hd as <-. exists em, rest. split; [exact Hmail | exact Hlow].
Defined.

(** X11 on the sample data: [account_info] on the record the directory
    lookup returns for the user. *)
Lemma account_info_of_directory_record_witness :
  ∃ info, account_info_of default_config (ResDict alice_record) = Ok info
          ∧ au_email (ai_user info) = "a@b.com"
          ∧ au_profile (ai_user info) !! "identity_class"
            = au_profile (ai_user info) !! "department".
Proof.
  destruct (account_info_of_directory_record default_config
              (search_result [alice_entry]) alice alice_record eq_refl
              ltac:(vm_compute; reflexivity))
    as (info & uid & dept & Hrun & Hmail & _ & _ & _ & Hdept & Hclass).
  exists info. split; [exact Hrun|]. split; [exact Hmail|].
  rewrite Hclass. symmetry. exact Hdept.
Defined.

(** X12 on the sample data: the schema on the record the directory lookup
    returns for the user. *)
Lemma schema_on_directory_record_witness :
  get_email alice_record = Ok (Some "a@b.com")
  ∧ ∃ groups, alice_record !! "Group" = Some (Some <$> groups)
              ∧ get_groups default_config alice_record
                = Ok (fetch_groups default_config groups).
Proof.
  destruct (schema_on_directory_record default_config (search_result [alice_entry])
              alice alice_record ltac:(vm_compute; reflexivity))
    as (Hmail & _ & Hgroups & _).
  split; [exact Hmail | exact Hgroups].
Defined.

(** X13 on the sample data: the schema and [account_info] on the record of
    the user. *)
Lemma schema_agrees_with_account_info_witness :
  account_info_of default_config (ResDict alice_record) = Ok alice_info
  ∧ get_external_id alice_record = Ok (Some "1234").
Proof.
  assert (H : account_info_of default_config (ResDict alice_record) = Ok alice_info)
    by (vm_compute; reflexivity).
  split; [exact H|].
  exact (proj1 (schema_agrees_with_account_info _ _ _ H)).
Defined.

(** X14 on the sample data: [account_info] on a response with an email
    address and on one without. *)
Lemma account_info_of_rest_record_witness :
  (∃ info, account_info_of default_config
             (ResDict (get_dict_from_response profile_response)) = Ok info
           ∧ au_email (ai_user info) = "a@b.com")
  ∧ account_info_of default_config (ResDict (get_dict_from_response ok_response))
    = Raise AttributeError.
Proof.
  split.
  - exact (account_info_of_rest_record default_config profile_response eq_refl).
  - exact (proj2 (account_info_of_rest_record default_config ok_response eq_refl)).
Defined.

(** X15 on the sample data: the refresh on a response that carries an
    email address and a person id only. *)
Lemma account_groups_and_extra_data_without_groups_witness :
  account_groups_and_extra_data env_rest_up (7%Z, "changeme")
    (ResDict (get_dict_from_response
                {| status := 200; resp_code := Some 200%Z;
                   data := take 2 profile_claims |}))
    None linked_world
  = (Raise KeyError, linked_world).
Proof.
  destruct (account_groups_and_extra_data_without_groups env_rest_up
              (7%Z, "changeme") None linked_world) as (_ & H & _).
  apply (H {| status := 200; resp_code := Some 200%Z; data := take 2 profile_claims |}).
  reflexivity.
Defined.

(** X16 on the sample data: a sign-up of the user on the REST resource. *)
Lemma account_info_then_account_setup_witness :
  ∃ info w1 w2,
    account_info env_sign_up (Some (cern_remote (Ok profile_response))) empty_world
    = (Ok info, w1)
    ∧ au_email (ai_user info) = "a@b.com"
    ∧ account_setup env_sign_up (Some (cern_remote (Ok profile_response)))
        (7%Z, "changeme") w1
      = (Ok Returned, w2)
    ∧ log w2 = [RestGet REMOTE_APP_RESOURCE_API_URL]
    ∧ provides (g_identity w2)
      = provides plain_identity ∪ derived_provides "a@b.com" ["admins"; "users"].
Proof.
  destruct (account_info_then_account_setup env_sign_up
              (cern_remote (Ok profile_response)) profile_response empty_world
              (7%Z, "changeme") ["admins"; "users"] "A@B.com" []
              eq_refl eq_refl eq_refl eq_refl eq_refl
              ltac:(vm_compute; reflexivity) ltac:(vm_compute; reflexivity))
    as (info & ext & w1 & w2 & Hinfo & Hmail & _ & _ & Hsetup & Hlog & _ & _ & _
        & Hprov & _).
  exists info, w1, w2. split; [exact Hinfo|]. split; [exact Hmail|].
  split; [exact Hsetup|]. split; [exact Hlog | exact Hprov].
Defined.

(** X17 on the sample data: the set-up of an account under an anonymous
    identity. *)
Lemma account_setup_asserts_after_commit_witness :
  ∃ w', account_setup env_rest_up None (7%Z, "changeme") anonymous_world
        = (Ok AssertionFailed, w')
        ∧ ∃ snapshot, committed w' !! (7%Z, "changeme") = Some snapshot
                      ∧ snapshot !! "groups"
                        = Some (SList (fetch_groups default_config
                                         ["GroupX"; "cms-members"])).
Proof.
  destruct (account_setup_asserts_after_commit env_rest_up None (7%Z, "changeme")
              anonymous_world alice_record [Some "GroupX"; Some "cms-members"]
              ["GroupX"; "cms-members"] (Some "1234")
              (list_to_map [ ("person_id", None); ("identity_class", Some "EP");
                             ("department", Some "EP") ])
              eq_refl ltac:(vm_compute; discriminate)
              ltac:(vm_compute; reflexivity) ltac:(vm_compute; reflexivity)
              eq_refl ltac:(vm_compute; reflexivity)
              ltac:(vm_compute; reflexivity) ltac:(vm_compute; reflexivity) eq_refl)
    as (w' & Hrun & Hsnap & _).
  exists w'. split; [exact Hrun | exact Hsnap].
Defined.

(** X19 on the sample data: the sign-up of the user and the disconnect. *)
Lemma sign_up_then_disconnect_witness :
  ∃ w2 w3,
    disconnect_handler env_sign_up (cern_remote (Ok profile_response)) w2
    = (Ok (Redirect "invenio_oauthclient_settings.index"), w3)
    ∧ accounts w3 = delete (7%Z, "changeme") (accounts empty_world)
    ∧ provides (g_identity w3)
      = provides plain_identity ∖ derived_provides "a@b.com" ["admins"; "users"].
Proof.
  destruct (sign_up_then_disconnect env_sign_up (cern_remote (Ok profile_response))
              profile_response empty_world ["admins"; "users"] "A@B.com" [] "1234"
              eq_refl eq_refl eq_refl eq_refl eq_refl
              ltac:(vm_compute; reflexivity) ltac:(vm_compute; reflexivity)
              ltac:(vm_compute; reflexivity) ltac:(discriminate) eq_refl)
    as (info & w1 & w2 & w3 & _ & _ & Hrun & Hacc & _ & Hprov & _).
  exists w2, w3. split; [exact Hrun|]. split; [exact Hacc | exact Hprov].
Defined.

Section InstantsSample.

Local Open Scope Z_scope.

(** X18 on the sample data: a timestamp two and a half minutes before
    [sample_now] is later than the threshold of five minutes, and not later
    than [sample_now] itself. *)
Lemma should_refresh_groups_by_instant_witness :
  should_refresh_groups sample_now (Some "2024-03-01T00:00:00")
    (Some (timedelta_minutes (-5))) = Ok false
  ∧ should_refresh_groups sample_now (Some "2024-03-01T00:00:00") None = Ok true.
Proof.
  destruct (should_refresh_groups_by_instant sample_now
              {| year := 2024; month := 3; day := 1; hour := 0; minute := 0;
                 second := 0; microsecond := 0 |}
              ltac:(unfold valid_datetime; cbn; lia)) as (Hwindow & Hnow).
  split.
  - exact (Hwindow (timedelta_minutes (-5))
             {| year := 2024; month := 2; day := 29; hour := 23; minute := 57;
                second := 30; microsecond := 0 |} eq_refl).
  - exact (Hnow ltac:(unfold valid_datetime; cbn; lia)).
Defined.

End InstantsSample.

(** ** Worked examples *)

Example fetch_groups_default :
  fetch_groups default_config
    ["cms-members"; "CERN Users"; "building-40 people"; "Users by Letter"; "it-dep"]
  = ["cms-members"; "Users by Letter"; "it-dep"].
Proof. vm_compute. reflexivity. Qed.

Example lower_example : Text.lower "CMS-Members" = "cms-members".
Proof. reflexivity. Qed.

Example split_example :
  Text.split ","%char "CN=GroupX,OU=e-groups,DC=cern,DC=ch"
  = ["CN=GroupX"; "OU=e-groups"; "DC=cern"; "DC=ch"].
Proof. reflexivity. Qed.

Example remove_all_example :
  Text.remove_all "ab" "xabyabab" = "xy".
Proof. reflexivity. Qed.

Example isoformat_example : isoformat sample_now = "2024-03-01T00:02:30".
Proof. reflexivity. Qed.

Example add_example :
  isoformat <$> add sample_now (timedelta_minutes (-5) + 17)%Z
  = Ok "2024-02-29T23:57:30.000017".
Proof. reflexivity. Qed.

Example add_overflow :
  add sample_now (timedelta_minutes (-5) - 999999999 * US_PER_DAY)%Z
  = Raise OverflowError.
Proof. reflexivity. Qed.
